(** * SpotifySync: a shallow embedding of [sync_spotify.py]

    The script reads a list of playlist references, resolves a folder name
    for each, runs the external [spotdl] tool inside that folder and strips
    the metadata of the downloaded files with [ffmpeg].  This development
    embeds the pure helpers ([sanitize_filename], [extract_playlist_id],
    [resolve_playlist_name]) as functions on lists of code points, and the
    effectful part (sync step, post-processing, main loop) in a state and
    exception monad over a small model of the process: file store, working
    directory, launched commands and printed lines. *)

From Stdlib Require Import NArith ZArith Ascii String List Lia.
From stdpp Require Import base option list gmap strings.

Local Open Scope N_scope.

(** ** Python strings

    A Python [str] is a sequence of Unicode code points. *)

Abbreviation pystr := (list N).

(** String literals of the source, written as Rocq strings. *)
Definition py (s : string) : pystr :=
  List.map N_of_ascii (list_ascii_of_string s).

(** [str.isspace] for one code point; the same table backs [str.strip] and
    the [\s] class of [re] on [str] patterns. *)
Definition isspace (c : N) : bool :=
  ((9 <=? c) && (c <=? 13)) || ((28 <=? c) && (c <=? 31)) || (c =? 32)
  || (c =? 133) || (c =? 160) || (c =? 5760)
  || ((8192 <=? c) && (c <=? 8202)) || (c =? 8232) || (c =? 8233)
  || (c =? 8239) || (c =? 8287) || (c =? 12288).

(** The class of [sanitize_filename]: the characters [<], [>], [:], the
    double quote, [/], the backslash, [|], [?], [*] and the code points
    [0x00] to [0x1f]. *)
Definition disallowed (c : N) : bool :=
  (c =? 60) || (c =? 62) || (c =? 58) || (c =? 34) || (c =? 47)
  || (c =? 92) || (c =? 124) || (c =? 63) || (c =? 42) || (c <=? 31).

(** The class [[A-Za-z0-9]] of [extract_playlist_id]. *)
Definition is_alnum (c : N) : bool :=
  ((48 <=? c) && (c <=? 57)) || ((65 <=? c) && (c <=? 90))
  || ((97 <=? c) && (c <=? 122)).

Fixpoint lstrip (s : pystr) : pystr :=
  match s with
  | [] => []
  | c :: t => if isspace c then lstrip t else s
  end.

Fixpoint rstrip (s : pystr) : pystr :=
  match s with
  | [] => []
  | c :: t =>
      match rstrip t with
      | [] => if isspace c then [] else [c]
      | r => c :: r
      end
  end.

(** [s.strip()] *)
Definition strip (s : pystr) : pystr := rstrip (lstrip s).

(** [re.sub(cls, '', s)] for a one-character class. *)
Definition re_sub_class_empty (cls : N -> bool) (s : pystr) : pystr :=
  List.filter (fun c => negb (cls c)) s.

(** [re.sub] of [\s+] by one space: every maximal run of whitespace becomes one
    space.  [in_run] tells that the previous character was part of the run
    being replaced. *)
Fixpoint collapse_from (in_run : bool) (s : pystr) : pystr :=
  match s with
  | [] => []
  | c :: t =>
      if isspace c
      then (if in_run then collapse_from true t else 32 :: collapse_from true t)
      else c :: collapse_from false t
  end.

Definition re_sub_spaces (s : pystr) : pystr := collapse_from false s.

(** [s[:k]], with Python's meaning of a negative bound. *)
Definition slice_to (k : Z) (s : pystr) : pystr :=
  if (k <? 0)%Z
  then take (Z.to_nat (Z.of_nat (length s) + k)) s
  else take (Z.to_nat k) s.

(** [x or y] on strings: the empty string is falsy. *)
Definition str_or (x y : pystr) : pystr :=
  match x with [] => y | _ => x end.

Definition placeholder : pystr := py "Playlist".

(** [sanitize_filename(s, max_len)].  The source starts by replacing a
    falsy [s] with the empty string, which is the identity on a [str]. *)
Definition sanitize_filename_len (s : pystr) (max_len : Z) : pystr :=
  let s := strip (str_or s []) in
  let s := re_sub_class_empty disallowed s in
  let s := strip (re_sub_spaces s) in
  str_or (slice_to max_len s) placeholder.

(** The default [max_len = 200]. *)
Definition sanitize_filename (s : pystr) : pystr :=
  sanitize_filename_len s 200.

(** ** Identifier extraction *)

(** The two patterns of [extract_playlist_id] are a fixed sequence of
    one-character matchers followed by the group [([A-Za-z0-9]+)], which
    ends the pattern: the greedy group takes the longest run and nothing
    backtracks into it. *)
Fixpoint match_chars (pre : list (N -> bool)) (s : pystr) : option pystr :=
  match pre with
  | [] => Some s
  | p :: pre' =>
      match s with
      | c :: t => if p c then match_chars pre' t else None
      | [] => None
      end
  end.

Fixpoint take_while (p : N -> bool) (s : pystr) : pystr :=
  match s with
  | c :: t => if p c then c :: take_while p t else []
  | [] => []
  end.

(** Group 1 of a match anchored at the start of [s]. *)
Definition match_here (pre : list (N -> bool)) (s : pystr) : option pystr :=
  match match_chars pre s with
  | Some rest =>
      match take_while is_alnum rest with
      | [] => None
      | g => Some g
      end
  | None => None
  end.

(** [re.search(pattern, s)], returning [m.group(1)]: the leftmost position
    where the pattern matches. *)
Fixpoint re_search (pre : list (N -> bool)) (s : pystr) : option pystr :=
  match match_here pre s with
  | Some g => Some g
  | None =>
      match s with
      | [] => None
      | _ :: t => re_search pre t
      end
  end.

Definition lit (s : string) : list (N -> bool) :=
  List.map (fun c => N.eqb c) (py s).

Definition is_sep (c : N) : bool := (c =? 47) || (c =? 58).

(** The pattern [playlist[/:]([A-Za-z0-9]+)]. *)
Definition pat_playlist : list (N -> bool) := lit "playlist" ++ [is_sep].

(** The pattern [open\.spotify\.com/playlist/([A-Za-z0-9]+)]. *)
Definition pat_open_url : list (N -> bool) := lit "open.spotify.com/playlist/".

(** [re.fullmatch] of [[A-Za-z0-9]+] on [s], as a truth value. *)
Definition fullmatch_alnum (s : pystr) : bool :=
  match s with
  | [] => false
  | _ => forallb is_alnum s
  end.

Definition extract_playlist_id (url_or_id : pystr) : pystr :=
  match re_search pat_playlist url_or_id with
  | Some g => g
  | None =>
      match re_search pat_open_url url_or_id with
      | Some g => g
      | None =>
          if fullmatch_alnum url_or_id then url_or_id else url_or_id
      end
  end.

(** ** Name resolution

    The two remote tiers are outside the program: each is a function from
    the identifier to the name it returns, [None] when it returns [None]
    (library missing, credentials missing, request failed, nothing found). *)
Section Resolve.
Variable get_name_via_spotify_api : pystr -> option pystr.
Variable get_name_via_scrape : pystr -> option pystr.

(** [if name:] is false for [None] and for the empty string. *)
Definition truthy (name : option pystr) : bool :=
  match name with
  | Some (_ :: _) => true
  | _ => false
  end.

Definition resolve_playlist_name (url_or_id : pystr) : pystr :=
  let pid := extract_playlist_id url_or_id in
  let name := get_name_via_spotify_api pid in
  if truthy name then sanitize_filename (default [] name)
  else
    let name := get_name_via_scrape pid in
    if truthy name then sanitize_filename (default [] name)
    else sanitize_filename pid.
End Resolve.


(** ** The process model

    A path is a sequence of components, absolute or relative to the working
    directory.  There are no symbolic links; the process model below takes
    the components as names, and the configuration lookup follows [..]
    with [locate]. *)
Record path := Path { absolute : bool; parts : list pystr }.

Definition resolve (cwd : list pystr) (p : path) : list pystr :=
  if absolute p then parts p else cwd ++ parts p.

(** [base / name] of [pathlib]: a component [.] is dropped. *)
Definition path_div (base : path) (name : pystr) : path :=
  if decide (name = py ".") then base
  else Path (absolute base) (parts base ++ [name]).

(** [os.path.join(root, f)] for a file name [f] listed in [root]. *)
Definition path_join (root : path) (f : pystr) : path :=
  Path (absolute root) (parts root ++ [f]).

Fixpoint add_to_last (suf : pystr) (l : list pystr) : list pystr :=
  match l with
  | [] => [suf]
  | [x] => [x ++ suf]
  | x :: t => x :: add_to_last suf t
  end.

(** [p + suffix] on the string of a path: the suffix lands on the last
    component. *)
Definition path_add_suffix (p : path) (suf : pystr) : path :=
  Path (absolute p) (add_to_last suf (parts p)).

(** All prefixes of a sequence, the empty one first. *)
Fixpoint inits {A} (l : list A) : list (list A) :=
  [] :: match l with
        | [] => []
        | x :: t => List.map (cons x) (inits t)
        end.

Fixpoint strip_prefix (pre l : list pystr) : option (list pystr) :=
  match pre, l with
  | [], _ => Some l
  | x :: pre', y :: l' => if decide (x = y) then strip_prefix pre' l' else None
  | _ :: _, [] => None
  end.

(** The file store: regular files with their content, and directories,
    both under absolute paths. *)
Record fstore := FStore {
  files : gmap (list pystr) (list N);
  dirs : gset (list pystr)
}.

(** An argument of a command line: a plain string, or a path (handed to the
    tool as its string). *)
Inductive arg :=
  | AStr (s : pystr)
  | APath (p : path).

(** What [subprocess.run] observes of a child process. *)
Inductive outcome :=
  | Exited (code : Z)      (* the tool ran and returned this status *)
  | NotStarted             (* the executable could not be launched *)
  | Interrupted.           (* the user interrupted the wait *)

Inductive exn :=
  | CalledProcessError
  | OSError
  | KeyboardInterrupt
  | SystemExit (code : Z).

(** [except Exception] catches the first two; [KeyboardInterrupt] and
    [SystemExit] derive from [BaseException] only. *)
Definition is_Exception (e : exn) : bool :=
  match e with
  | CalledProcessError | OSError => true
  | KeyboardInterrupt | SystemExit _ => false
  end.

(** One constructor per [print] of the modelled functions. *)
Inductive event :=
  | EvRunning (cwd : list pystr) (cmd : list arg)
  | EvDryRunSync
  | EvDryRunStrip
  | EvStripped (rel : list pystr)
  | EvStripFailed (full : path)
  | EvProcessing (url : pystr)
  | EvResolved (name : pystr)
  | EvSpotdlFailed (url : pystr)
  | EvUnexpected (url : pystr)
  | EvDone (name : pystr)
  | EvInterrupted
  | EvAllDone.

Record world := World {
  w_fs : fstore;
  w_cwd : list pystr;             (* the working directory of the script *)
  w_cmds : list (list arg);       (* commands launched so far, oldest first *)
  w_out : list event              (* lines printed so far, oldest first *)
}.

Inductive result (A : Type) :=
  | Ok (a : A)
  | Raise (e : exn).
Arguments Ok {A} a.
Arguments Raise {A} e.

(** State and exceptions: a statement maps the world to a value or a raised
    exception, and to the world it leaves. *)
Definition M (A : Type) : Type := world -> result A * world.

#[global] Instance M_ret : MRet M := fun A a w => (Ok a, w).
#[global] Instance M_bind : MBind M := fun A B f m w =>
  match m w with
  | (Ok a, w') => f a w'
  | (Raise e, w') => (Raise e, w')
  end.

Definition raise {A} (e : exn) : M A := fun w => (Raise e, w).
Definition get_world : M world := fun w => (Ok w, w).
Definition set_fs (fs : fstore) : M unit :=
  fun w => (Ok tt, World fs (w_cwd w) (w_cmds w) (w_out w)).
Definition print (e : event) : M unit :=
  fun w => (Ok tt, World (w_fs w) (w_cwd w) (w_cmds w) (w_out w ++ [e])).

(** [try: body except ...: handler]: [handler e] is [None] when no clause
    matches [e]. *)
Definition try_except {A} (body : M A) (handler : exn -> option (M A)) : M A :=
  fun w =>
    match body w with
    | (Ok a, w') => (Ok a, w')
    | (Raise e, w') =>
        match handler e with
        | Some h => h w'
        | None => (Raise e, w')
        end
    end.

(** [try: body finally: fin]: [fin] runs on every exit of [body], a
    [return] inside it included. *)
Definition try_finally {A} (body : M A) (fin : M unit) : M A :=
  fun w =>
    match body w with
    | (r, w') =>
        match fin w' with
        | (Ok _, w'') => (r, w'')
        | (Raise e, w'') => (Raise e, w'')
        end
    end.

Fixpoint for_each {A} (xs : list A) (body : A -> M unit) : M unit :=
  match xs with
  | [] => mret tt
  | x :: rest => body x ;; for_each rest body
  end.

(** *** Operating system calls *)

Definition os_getcwd : M (list pystr) := fun w => (Ok (w_cwd w), w).

(** [os.chdir]: validity of the target is not modelled. *)
Definition os_chdir (p : path) : M unit :=
  fun w => (Ok tt, World (w_fs w) (resolve (w_cwd w) p) (w_cmds w) (w_out w)).

Definition is_file (fs : fstore) (p : list pystr) : bool :=
  bool_decide (is_Some (files fs !! p)).
Definition is_dir (fs : fstore) (p : list pystr) : bool :=
  bool_decide (p ∈ dirs fs).

(** [Path(p).mkdir(parents=True, exist_ok=True)]: fails when the path or one
    of its ancestors is a regular file, otherwise the path and its missing
    ancestors become directories. *)
Definition mkdir_parents (p : path) : M unit :=
  w ← get_world;
  let target := resolve (w_cwd w) p in
  if existsb (is_file (w_fs w)) (inits target) then raise OSError
  else set_fs (FStore (files (w_fs w)) (list_to_set (inits target) ∪ dirs (w_fs w))).

(** [os.path.exists]: true of a regular file and of a directory. *)
Definition os_path_exists (p : path) : M bool :=
  w ← get_world;
  mret (is_file (w_fs w) (resolve (w_cwd w) p)
        || is_dir (w_fs w) (resolve (w_cwd w) p)).

(** [os.remove]: only a regular file can be removed; on a directory, as
    on a missing path, it raises. *)
Definition os_remove (p : path) : M unit :=
  w ← get_world;
  let q := resolve (w_cwd w) p in
  if is_file (w_fs w) q
  then set_fs (FStore (delete q (files (w_fs w))) (dirs (w_fs w)))
  else raise OSError.

(** [shutil.move(src, dst)] for a regular file [src] and a destination that
    is a regular file or absent. *)
Definition shutil_move (src dst : path) : M unit :=
  w ← get_world;
  let s := resolve (w_cwd w) src in
  let d := resolve (w_cwd w) dst in
  match files (w_fs w) !! s with
  | Some data =>
      set_fs (FStore (<[d := data]> (delete s (files (w_fs w)))) (dirs (w_fs w)))
  | None => raise OSError
  end.

(** [os.walk(top)]: the directories at and below [top], as paths relative to
    it, [top] itself first; nothing when [top] is not a directory.  The
    order among the others is the store's. *)
Definition walk_dirs (fs : fstore) (top : list pystr) : list (list pystr) :=
  if is_dir fs top
  then [] :: omap (fun d => match strip_prefix top d with
                            | Some (x :: r) => Some (x :: r)
                            | _ => None
                            end) (elements (dirs fs))
  else [].

(** The regular files directly inside [dir]. *)
Definition listdir_files (fs : fstore) (dir : list pystr) : list pystr :=
  omap (fun p => match strip_prefix dir p with
                 | Some [f] => Some f
                 | _ => None
                 end) (List.map fst (map_to_list (files fs))).

(** ** String helpers of the effectful part *)

Fixpoint startswith (pre s : pystr) : bool :=
  match pre, s with
  | [], _ => true
  | x :: pre', y :: s' => (x =? y) && startswith pre' s'
  | _ :: _, [] => false
  end.

(** [s.endswith(suf)] *)
Definition endswith (suf s : pystr) : bool :=
  startswith (rev suf) (rev s).

(** [str.lower] on the ASCII letters; the other code points are kept (none
    of them lowercases to one of the characters of [.mp3]). *)
Definition lower_cp (c : N) : N :=
  if (65 <=? c) && (c <=? 90) then c + 32 else c.
Definition lower (s : pystr) : pystr := List.map lower_cp s.

(** [playlist_url.split(?, 1)[0]]: the text before the first question
    mark. *)
Definition before_query (url : pystr) : pystr :=
  take_while (fun c => negb (c =? 63)) url.

Definition spotdl_ext : pystr := py ".spotdl".

(** The save-file name of the sync step: the name is formatted with the
    extension, then the extension is added when the result does not end
    with it. *)
Definition save_file_name (playlist_name : pystr) : pystr :=
  let save_name := playlist_name ++ spotdl_ext in
  if negb (endswith spotdl_ext save_name)
  then save_name ++ spotdl_ext
  else save_name.

Definition spotdl_cmd (clean_url save_name : pystr) : list arg :=
  [AStr (py "spotdl"); AStr (py "sync"); AStr clean_url;
   AStr (py "--save-file"); AStr save_name].

Definition ffmpeg_cmdline (ffmpeg_cmd : pystr) (full tmp : path) : list arg :=
  [AStr ffmpeg_cmd; AStr (py "-i"); APath full; AStr (py "-map_metadata");
   AStr (py "-1"); AStr (py "-vn"); AStr (py "-c:a"); AStr (py "copy");
   APath tmp; AStr (py "-y")].

Definition tmp_suffix : pystr := py ".tmp.mp3".

(** ** The tool configuration *)

(** A value loaded by [json.load].  A float is kept only as far as its
    truth value needs: whether it is zero. *)
#[local] Unset Elimination Schemes.
Inductive json :=
  | JNull
  | JBool (b : bool)
  | JInt (n : Z)
  | JFloat (is_zero : bool)
  | JString (s : pystr)
  | JArray (items : list json)
  | JObject (members : list (pystr * json)).
#[local] Set Elimination Schemes.

(** [bool(v)] *)
Definition py_bool (v : json) : bool :=
  match v with
  | JNull => false
  | JBool b => b
  | JInt n => negb (n =? 0)%Z
  | JFloat z => negb z
  | JString s => negb (bool_decide (s = []))
  | JArray l => negb (bool_decide (l = []))
  | JObject l => negb (bool_decide (l = []))
  end.

(** The post-processing decision of [main]: [not args.no_strip], replaced by
    the truth value of the [post_strip] key when the configuration has it. *)
Definition do_post_strip (no_strip : bool) (cfg : gmap pystr json) : bool :=
  let do_post_strip := negb no_strip in
  match cfg !! py "post_strip" with
  | Some v => py_bool v
  | None => do_post_strip
  end.

(** ** The sync step, the post-processing and the main loop *)

Section Program.
(** The external tools: what a command does when launched in a working
    directory on a file store. *)
Variable exec : list arg -> list pystr -> fstore -> outcome * fstore.
Variable get_name_via_spotify_api : pystr -> option pystr.
Variable get_name_via_scrape : pystr -> option pystr.

(** [subprocess.run(cmd, check=True)]: a non-zero status raises
    [CalledProcessError].  The child works on the file store; the working
    directory of the script is not its to change. *)
Definition subprocess_run (cmd : list arg) : M unit :=
  fun w =>
    let launched := w_cmds w ++ [cmd] in
    match exec cmd (w_cwd w) (w_fs w) with
    | (Exited c, fs') =>
        (if (c =? 0)%Z then Ok tt else Raise CalledProcessError,
         World fs' (w_cwd w) launched (w_out w))
    | (NotStarted, _) =>
        (Raise OSError, World (w_fs w) (w_cwd w) launched (w_out w))
    | (Interrupted, fs') =>
        (Raise KeyboardInterrupt, World fs' (w_cwd w) launched (w_out w))
    end.

Definition run_spotdl_sync_into_folder
    (playlist_url : pystr) (folder : path) (playlist_name : pystr)
    (dry_run : bool) : M unit :=
  let clean_url := before_query playlist_url in
  mkdir_parents folder ;;
  orig_cwd ← os_getcwd ;
  try_finally
    (os_chdir folder ;;
     let save_name := save_file_name playlist_name in
     let cmd := spotdl_cmd clean_url save_name in
     cwd ← os_getcwd ;
     print (EvRunning cwd cmd) ;;
     if dry_run
     then print EvDryRunSync          (* return *)
     else subprocess_run cmd)
    (os_chdir (Path true orig_cwd)).

(** The body of the inner loop of [strip_mp3_metadata_in_folder], for the
    file [f] of the directory [root]; [rel] is [root] relative to the
    folder. *)
Definition strip_one (ffmpeg_cmd : pystr) (root : path) (rel : list pystr)
    (f : pystr) : M unit :=
  if endswith (py ".mp3") (lower f) then
    let full := path_join root f in
    let tmp := path_add_suffix full tmp_suffix in
    let cmd := ffmpeg_cmdline ffmpeg_cmd full tmp in
    try_except
      (subprocess_run cmd ;;
       shutil_move tmp full ;;
       print (EvStripped (rel ++ [f])))
      (fun e =>
         match e with
         | CalledProcessError =>
             Some (there ← os_path_exists tmp ;
                   (if there : bool then os_remove tmp else mret tt) ;;
                   print (EvStripFailed full))
         | _ => None
         end)
  else mret tt.

(** One directory of the walk: its files are listed when it is reached. *)
Definition strip_dir (ffmpeg_cmd : pystr) (folder : path) (rel : list pystr)
    : M unit :=
  let root := Path (absolute folder) (parts folder ++ rel) in
  w ← get_world ;
  for_each (listdir_files (w_fs w) (resolve (w_cwd w) root))
           (strip_one ffmpeg_cmd root rel).

(** The directories to visit are taken when the walk starts; the files of
    each are listed when it is reached. *)
Definition strip_mp3_metadata_in_folder
    (folder : path) (ffmpeg_cmd : pystr) (dry_run : bool) : M unit :=
  if dry_run then print EvDryRunStrip
  else
    w ← get_world ;
    for_each (walk_dirs (w_fs w) (resolve (w_cwd w) folder))
             (strip_dir ffmpeg_cmd folder).

(** The body of the loop of [main] for one reference.  The two handlers
    end in [continue]: the flag tells whether the rest of the body runs. *)
Definition process_one (base_dir : path) (dry_run post_strip : bool)
    (ffmpeg_cmd : pystr) (url : pystr) : M unit :=
  print (EvProcessing url) ;;
  let name :=
    resolve_playlist_name get_name_via_spotify_api get_name_via_scrape url in
  let folder := path_div base_dir name in
  print (EvResolved name) ;;
  synced ← try_except
    (run_spotdl_sync_into_folder url folder name dry_run ;; mret true)
    (fun e =>
       match e with
       | CalledProcessError => Some (print (EvSpotdlFailed url) ;; mret false)
       | _ =>
           if is_Exception e
           then Some (print (EvUnexpected url) ;; mret false)
           else None
       end) ;
  if synced : bool then
    (if post_strip
     then strip_mp3_metadata_in_folder folder ffmpeg_cmd dry_run
     else mret tt) ;;
    print (EvDone name)
  else mret tt.

(** The loop of [main] with its [KeyboardInterrupt] handler, and the last
    [print]. *)
Definition main_loop (base_dir : path) (dry_run post_strip : bool)
    (ffmpeg_cmd : pystr) (lines : list pystr) : M unit :=
  try_except
    (for_each lines (process_one base_dir dry_run post_strip ffmpeg_cmd))
    (fun e =>
       match e with
       | KeyboardInterrupt => Some (print EvInterrupted ;; raise (SystemExit 1))
       | _ => None
       end) ;;
  print EvAllDone.
End Program.

(** The exit status of the interpreter: 0 when the script runs to its end,
    the argument of [sys.exit], and 1 for an exception nothing caught. *)
Definition exit_code {A} (r : result A) : Z :=
  match r with
  | Ok _ => 0
  | Raise (SystemExit c) => c
  | Raise _ => 1
  end.

(** The references announced on the output, in order. *)
Definition processed (out : list event) : list pystr :=
  omap (fun e => match e with EvProcessing u => Some u | _ => None end) out.

(** The names reported done on the output, in order. *)
Definition completed (out : list event) : list pystr :=
  omap (fun e => match e with EvDone n => Some n | _ => None end) out.

(** ** The start of [main]: the list of references, the [ffmpeg] command *)

(** The comprehension that reads the playlists file: each line is kept,
    stripped, when it is not blank after stripping and does not start with
    [#]. *)
Definition playlist_lines (raw : list pystr) : list pystr :=
  List.map strip
    (List.filter
       (fun ln => negb (bool_decide (strip ln = []))
                  && negb (startswith (py "#") (strip ln)))
       raw).

(** [x or y] on values. *)
Definition py_or (x y : json) : json := if py_bool x then x else y.

(** A value that may be [None]. *)
Definition or_none (o : option json) : json := default JNull o.

(** The [ffmpeg] command of [main]: the [ffmpeg] key of the configuration,
    or the command-line option, or the [FFMPEG] variable, or [ffmpeg]. *)
Definition choose_ffmpeg (cfg : gmap pystr json)
    (ffmpeg_opt ffmpeg_env : option pystr) : json :=
  py_or (py_or (py_or (or_none (cfg !! py "ffmpeg"))
                      (or_none (JString <$> ffmpeg_opt)))
               (or_none (JString <$> ffmpeg_env)))
        (JString (py "ffmpeg")).

(** ** The configuration lookup *)

(** [s.split(sep)] for a one-character separator. *)
Fixpoint split_on (sep : N) (s : pystr) : list pystr :=
  match s with
  | [] => [[]]
  | c :: t =>
      if c =? sep then [] :: split_on sep t
      else match split_on sep t with
           | h :: r => (c :: h) :: r
           | [] => [[c]]
           end
  end.

(** [Path(s)] with POSIX separators: empty components and [.] are dropped,
    a leading slash makes the path absolute. *)
Definition path_of_str (s : pystr) : path :=
  Path (startswith (py "/") s)
       (List.filter (fun c => negb (bool_decide (c = []))
                              && negb (bool_decide (c = py ".")))
                    (split_on 47 s)).

(** What the lookup of the configuration can raise. *)
Inductive lookup_exn :=
  | RuntimeError    (* [expanduser], [Path.home]: no home directory *)
  | StatError.      (* the [OSError] of [os.stat] that [Path.exists] re-raises *)

(** A value, or an exception that nothing in the lookup catches. *)
Inductive lookup (A : Type) :=
  | Returns (a : A)
  | Raises (e : lookup_exn).
Arguments Returns {A} a.
Arguments Raises {A} e.

#[global] Instance lookup_ret : MRet lookup := fun A a => Returns a.
#[global] Instance lookup_bind : MBind lookup := fun A B f m =>
  match m with
  | Returns a => f a
  | Raises e => Raises e
  end.

(** [Path.home()]: the home directory of the current user, taken from
    [HOME] or from the password database; [RuntimeError] when neither
    gives one. *)
Definition path_home (home : option path) : lookup path :=
  match home with
  | Some h => Returns h
  | None => Raises RuntimeError
  end.

(** [p.expanduser()]: a relative path whose first component starts with
    [~] continues from a home directory, the one of the current user for
    [~] and the one the password database gives for [~name]; without such
    a directory it raises [RuntimeError]. *)
Definition expanduser (home : option path)
    (user_home : pystr -> option path) (p : path) : lookup path :=
  if absolute p then Returns p
  else match parts p with
       | (126 :: user) :: r =>
           match match user with
                 | [] => home
                 | _ :: _ => user_home user
                 end with
           | Some h => Returns (Path (absolute h) (parts h ++ r))
           | None => Raises RuntimeError
           end
       | _ => Returns p
       end.

(** Where the operating system finds the components of a path, starting
    from [cur]: a component [..] leads from an existing directory to its
    parent, the root being its own parent. *)
Fixpoint locate_from (fs : fstore) (cur : list pystr) (comps : list pystr)
    : option (list pystr) :=
  match comps with
  | [] => Some cur
  | c :: rest =>
      if decide (c = py "..")
      then (if bool_decide (cur = []) || is_dir fs cur
            then locate_from fs (removelast cur) rest
            else None)
      else locate_from fs (cur ++ [c]) rest
  end.

Definition locate (fs : fstore) (cwd : list pystr) (p : path)
    : option (list pystr) :=
  locate_from fs (if absolute p then [] else cwd) (parts p).

(** [p.exists()]: [os.stat] finds the root, a regular file or a directory;
    a missing component gives [False]; any other failure of [os.stat] (no
    permission to search a directory, a name that is too long), which the
    store does not describe and [stat_fails] stands for, is raised. *)
Definition path_exists (fs : fstore) (cwd : list pystr)
    (stat_fails : path -> bool) (p : path) : lookup bool :=
  if stat_fails p then Raises StatError
  else Returns match locate fs cwd p with
               | Some q => bool_decide (q = []) || is_file fs q || is_dir fs q
               | None => false
               end.

(** [if x:] on an optional string: [None] and the empty string are
    skipped. *)
Definition nonempty (o : option pystr) : option pystr :=
  match o with
  | Some (c :: t) => Some (c :: t)
  | _ => None
  end.

(** What [load_spotdl_config] prints. *)
Inductive config_msg :=
  | MsgLoaded (p : path)
  | MsgWarning (p : path).

Section Config.
Variable environ : gmap pystr pystr.       (* [os.environ] *)
(** The home directory of the current user, and of a named user in the
    password database; [None] when there is none. *)
Variable home : option path.
Variable user_home : pystr -> option path.
Variable cwd : list pystr.
Variable fs : fstore.
Variable stat_fails : path -> bool.
(** [open] or the read is refused although the file is there. *)
Variable unreadable : path -> bool.
(** [json.load] on the bytes of a file; [None] when it raises. *)
Variable json_load : list N -> option json.

(** [if p.exists(): return p] *)
Definition existing (p : path) : lookup (option path) :=
  found ← path_exists fs cwd stat_fails p ;
  mret (if found : bool then Some p else None).

Definition config_json (base : path) : path :=
  path_div (path_div base (py "spotdl")) (py "config.json").

(** The first two places are expanded; the third and the fourth ask for
    the home directory. *)
Definition find_spotdl_config (explicit : option pystr) : lookup (option path) :=
  found ← match nonempty explicit with
          | Some s =>
              p ← expanduser home user_home (path_of_str s) ;
              existing p
          | None => mret None
          end ;
  match found with
  | Some p => mret (Some p)
  | None =>
  found ← match nonempty (environ !! py "SPOTDL_CONFIG") with
          | Some s =>
              p ← expanduser home user_home (path_of_str s) ;
              existing p
          | None => mret None
          end ;
  match found with
  | Some p => mret (Some p)
  | None =>
  found ← match nonempty (environ !! py "XDG_CONFIG_HOME") with
          | Some xdg => existing (config_json (path_of_str xdg))
          | None =>
              h ← path_home home ;
              existing (config_json (path_div h (py ".config")))
          end ;
  match found with
  | Some p => mret (Some p)
  | None =>
  found ← (h ← path_home home ;
           existing (path_div (path_div h (py ".spotdl")) (py "config.json"))) ;
  match found with
  | Some p => mret (Some p)
  | None =>
  match nonempty (environ !! py "APPDATA") with
  | Some s => existing (config_json (path_of_str s))
  | None => mret None
  end end end end end.

(** [json.load(open(p))]; [None] when any of it raises: the path is a
    directory or has gone, the file cannot be opened or read, the text is
    not JSON. *)
Definition read_json (p : path) : option json :=
  if unreadable p then None
  else (locate fs cwd p ≫= (fun q => files fs !! q)) ≫= json_load.

(** [load_spotdl_config(path)]: the loaded value and the line printed.
    The lookup runs before the [try], so what it raises is raised by the
    load; what the reading raises is caught, and the handler returns the
    empty dictionary. *)
Definition load_spotdl_config (explicit : option pystr)
    : lookup (json * option config_msg) :=
  found ← find_spotdl_config explicit ;
  match found with
  | None => mret (JObject [], None)
  | Some p =>
      match read_json p with
      | Some cfg => mret (cfg, Some (MsgLoaded p))
      | None => mret (JObject [], Some (MsgWarning p))
      end
  end.
End Config.

(** The places of the docstring of [find_spotdl_config], in its order, each
    a path or the exception raised on the way to it; the third is the XDG
    directory when the variable is set and the [.config] directory of the
    home otherwise. *)
Definition config_candidates (environ : gmap pystr pystr) (home : option path)
    (user_home : pystr -> option path) (explicit : option pystr)
    : list (lookup path) :=
  from_option (fun s => [expanduser home user_home (path_of_str s)]) []
    (nonempty explicit)
  ++ from_option (fun s => [expanduser home user_home (path_of_str s)]) []
       (nonempty (environ !! py "SPOTDL_CONFIG"))
  ++ [match nonempty (environ !! py "XDG_CONFIG_HOME") with
      | Some xdg => Returns (config_json (path_of_str xdg))
      | None =>
          h ← path_home home ; mret (config_json (path_div h (py ".config")))
      end]
  ++ [h ← path_home home ;
      mret (path_div (path_div h (py ".spotdl")) (py "config.json"))]
  ++ from_option (fun s => [Returns (config_json (path_of_str s))]) []
       (nonempty (environ !! py "APPDATA")).

(** First match wins: the places are tried in order, up to the first that
    exists, or up to the first exception. *)
Fixpoint first_existing (ok : path -> lookup bool) (places : list (lookup path))
    : lookup (option path) :=
  match places with
  | [] => Returns None
  | place :: rest =>
      p ← place ;
      found ← ok p ;
      if found : bool then mret (Some p) else first_existing ok rest
  end.

(** A place that was tried and is not there. *)
Definition tried_missing (ok : path -> lookup bool) (place : lookup path) : Prop :=
  exists q, place = Returns q /\ ok q = Returns false.

(** A password database with the one user [root]. *)
Definition demo_users (user : pystr) : option path :=
  if decide (user = py "root") then Some (Path true [py "root"]) else None.

Definition demo_home : path := Path true [py "home"; py "me"].

(** A store with a configuration in the home of [root], one in the working
    directory, and a directory [x] there. *)
Definition demo_config_store : fstore :=
  FStore {[ [py "root"; py "cfg.json"] := py "{}" ;
            [py "home"; py "me"; py "my.json"] := py "{}" ]}
         {[ [] ; [py "root"]; [py "home"]; [py "home"; py "me"];
            [py "home"; py "me"; py "x"] ]}.

(** A store whose only configuration is in the [.config] directory of the
    home. *)
Definition demo_home_config : fstore :=
  FStore {[ [py "home"; py "me"; py ".config"; py "spotdl"; py "config.json"]
              := py "{}" ]}
         {[ [] ; [py "home"]; [py "home"; py "me"];
            [py "home"; py "me"; py ".config"];
            [py "home"; py "me"; py ".config"; py "spotdl"] ]}.

(** The operating system refuses nothing. *)
Definition no_refusal (_ : path) : bool := false.

(** A sync tool whose first run is interrupted by the user. *)
Definition interrupted_exec (cmd : list arg) (cwd : list pystr) (fs : fstore)
    : outcome * fstore := (Interrupted, fs).

(** The sync tool downloads one file; the strip tool is not installed. *)
Definition no_ffmpeg_exec (cmd : list arg) (cwd : list pystr) (fs : fstore)
    : outcome * fstore :=
  match cmd with
  | [AStr _; AStr _; AStr _; AStr _; AStr _] =>
      (Exited 0,
       FStore (<[cwd ++ [py "Song.mp3"] := [73; 68; 51]]> (files fs)) (dirs fs))
  | _ => (NotStarted, fs)
  end.

(** The strip tool reports success without writing its output. *)
Definition silent_exec (cmd : list arg) (cwd : list pystr) (fs : fstore)
    : outcome * fstore := (Exited 0, fs).

(** ** A small run

    Three references; the sync tool fails on the second and downloads one
    file for the others; the strip tool copies the input without its first
    byte. *)
Definition demo_bad : pystr := py "https://open.spotify.com/playlist/BAD?si=1".
Definition demo_lines : list pystr :=
  [py "https://open.spotify.com/playlist/AAA?si=0"; demo_bad; py "spotify:playlist:CCC"].

Definition demo_exec (cmd : list arg) (cwd : list pystr) (fs : fstore)
    : outcome * fstore :=
  match cmd with
  | [AStr _; AStr _; AStr url; AStr _; AStr _] =>
      if decide (url = before_query demo_bad) then (Exited 1, fs)
      else (Exited 0,
            FStore (<[cwd ++ [py "Song.MP3"] := [73; 68; 51; 255; 251]]> (files fs))
                   (dirs fs))
  | [AStr _; AStr _; APath full; AStr _; AStr _; AStr _; AStr _; AStr _;
     APath tmp; AStr _] =>
      (Exited 0,
       FStore (<[resolve cwd tmp :=
                   drop 1 (default [] (files fs !! resolve cwd full))]> (files fs))
              (dirs fs))
  | _ => (NotStarted, fs)
  end.

Definition no_name (_ : pystr) : option pystr := None.

Definition demo_world : world :=
  World (FStore ∅ {[ [] ; [py "home"] ]}) [py "home"] [] [].

Definition demo_base : path := Path false [py "Music"].

Definition demo_run : result unit * world :=
  main_loop demo_exec no_name no_name demo_base false true (py "ffmpeg")
            demo_lines demo_world.


(** A strip tool that fails on every file, leaving a partial output. *)
Definition failing_exec (cmd : list arg) (cwd : list pystr) (fs : fstore)
    : outcome * fstore :=
  match cmd with
  | [AStr _; AStr _; APath _; AStr _; AStr _; AStr _; AStr _; AStr _;
     APath tmp; AStr _] =>
      (Exited 1, FStore (<[resolve cwd tmp := [255]]> (files fs)) (dirs fs))
  | _ => (NotStarted, fs)
  end.

Definition demo_song : pystr := py "Song.MP3".
Definition demo_folder : path := Path false [py "Music"; py "AAA"].

(** The store after a download: one tagged file in the playlist folder. *)
Definition demo_synced : world :=
  World (FStore {[ [py "home"; py "Music"; py "AAA"; demo_song]
                     := [73; 68; 51; 255; 251] ]}
                (list_to_set (inits [py "home"; py "Music"; py "AAA"])))
        [py "home"] [] [].



(** ** Specification predicates *)

(** After a run of the strip tool the output path holds a regular file or
    nothing: no directory stands there. *)
Definition output_not_dir (fs' : fstore) (out : list pystr) : Prop :=
  is_Some (files fs' !! out) \/ is_dir fs' out = false.

(** The strip tool runs to an exit status on every file; when the status is
    0 its output file exists, and otherwise no directory stands at its
    output path. *)
Definition strip_tool_ok
    (exec : list arg -> list pystr -> fstore -> outcome * fstore)
    (ffmpeg_cmd : pystr) : Prop :=
  forall full tmp cwd fs,
    match exec (ffmpeg_cmdline ffmpeg_cmd full tmp) cwd fs with
    | (Exited c, fs') =>
        (c = 0%Z -> is_Some (files fs' !! resolve cwd tmp)) /\
        (c <> 0%Z -> output_not_dir fs' (resolve cwd tmp))
    | _ => False
    end.

(** Post-processing has nothing to raise: it is switched off, or the run
    is dry, or its tool is as [strip_tool_ok] says. *)
Definition strip_step_safe
    (exec : list arg -> list pystr -> fstore -> outcome * fstore)
    (ffmpeg_cmd : pystr) (dry_run post_strip : bool) : Prop :=
  post_strip = false \/ dry_run = true \/ strip_tool_ok exec ffmpeg_cmd.

(** No run of the sync tool is interrupted by the user. *)
Definition sync_not_interrupted
    (exec : list arg -> list pystr -> fstore -> outcome * fstore) : Prop :=
  forall url save_name cwd fs,
    fst (exec (spotdl_cmd url save_name) cwd fs) <> Interrupted.

(** Two worlds with the same references announced on the output. *)
Definition same_refs (w w' : world) : Prop :=
  processed (w_out w') = processed (w_out w).

(** The world with one more printed line. *)
Definition logged (w : world) (e : event) : world :=
  World (w_fs w) (w_cwd w) (w_cmds w) (w_out w ++ [e]).

(** The characters the sanitizer must keep out of a name, besides the
    control characters. *)
Definition reserved : pystr := py "<>:" ++ [34] ++ py "/\|?*".

(** The shape of a sanitized name: no disallowed character, every
    whitespace character is a plain space, and no space follows a space;
    with [after_space] the text may not start with a space either. *)
Fixpoint tidy (after_space : bool) (s : pystr) : bool :=
  match s with
  | [] => true
  | c :: t =>
      negb (disallowed c)
      && (if isspace c then (c =? 32) && negb after_space && tidy true t
          else tidy false t)
  end.

(** The input of the idempotence check: 199 letters, a space, a letter. *)
Definition long_name : pystr := repeat 97 199 ++ py " b".

(** * Theorems *)

(** ** The sanitizer *)

Lemma tidy_weaken s : tidy true s = true -> tidy false s = true.
Proof.
  destruct s as [|c t]; simpl; [done|].
  destruct (disallowed c), (isspace c); simpl; try done.
  rewrite andb_false_r. done.
Qed.

Lemma tidy_any p s : tidy true s = true -> tidy p s = true.
Proof. destruct p; [done | apply tidy_weaken]. Qed.

Lemma tidy_collapse p s :
  forallb (fun c => negb (disallowed c)) s = true ->
  tidy p (collapse_from p s) = true.
Proof.
  revert p. induction s as [|c t IH]; intros p H; simpl in *; [done|].
  apply andb_true_iff in H as [Hc Ht].
  destruct (isspace c) eqn:Hsp.
  - destruct p; simpl; [by apply IH|].
    by rewrite IH.
  - simpl. rewrite Hc, Hsp. simpl. by apply IH.
Qed.

Lemma filter_allowed s :
  forallb (fun c => negb (disallowed c)) (re_sub_class_empty disallowed s) = true.
Proof.
  unfold re_sub_class_empty. induction s as [|c t IH]; simpl; [done|].
  destruct (disallowed c) eqn:Hc; simpl; [done|]. by rewrite Hc, IH.
Qed.

Lemma tidy_lstrip p s : tidy p s = true -> tidy true (lstrip s) = true.
Proof.
  revert p. induction s as [|c t IH]; intros p H; simpl in *; [done|].
  destruct (isspace c) eqn:Hsp.
  - apply andb_true_iff in H as [_ H].
    apply andb_true_iff in H as [_ H]. by apply (IH true).
  - simpl. by rewrite Hsp.
Qed.

Lemma tidy_rstrip p s : tidy p s = true -> tidy p (rstrip s) = true.
Proof.
  revert p. induction s as [|c t IH]; intros p H; simpl in *; [done|].
  apply andb_true_iff in H as [Hc H].
  destruct (rstrip t) as [|d r] eqn:Hr.
  - destruct (isspace c) eqn:Hsp; simpl; [done|]. by rewrite Hc, Hsp.
  - simpl tidy at 1. rewrite Hc. simpl.
    destruct (isspace c).
    + apply andb_true_iff in H as [H1 H]. rewrite H1. simpl.
      by apply (IH true).
    + by apply (IH false).
Qed.

Lemma tidy_take p n s : tidy p s = true -> tidy p (take n s) = true.
Proof.
  revert p n. induction s as [|c t IH]; intros p n H; destruct n; simpl in *;
    try done.
  apply andb_true_iff in H as [Hc H]. rewrite Hc. simpl.
  destruct (isspace c).
  - apply andb_true_iff in H as [H1 H]. rewrite H1. simpl. by apply IH.
  - by apply IH.
Qed.

Lemma tidy_allowed p s c : tidy p s = true -> In c s -> disallowed c = false.
Proof.
  revert p. induction s as [|d t IH]; intros p H Hin; simpl in *; [done|].
  apply andb_true_iff in H as [Hd H].
  destruct Hin as [->|Hin]; [by apply negb_true_iff|].
  destruct (isspace d).
  - apply andb_true_iff in H as [_ H]. by apply (IH true).
  - by apply (IH false).
Qed.

Lemma tidy_filter p s : tidy p s = true -> re_sub_class_empty disallowed s = s.
Proof.
  unfold re_sub_class_empty.
  revert p. induction s as [|c t IH]; intros p H; simpl in *; [done|].
  apply andb_true_iff in H as [Hc H]. rewrite Hc. f_equal.
  destruct (isspace c).
  - apply andb_true_iff in H as [_ H]. by apply (IH true).
  - by apply (IH false).
Qed.

Lemma tidy_collapse_id p s : tidy p s = true -> collapse_from p s = s.
Proof.
  revert p. induction s as [|c t IH]; intros p H; simpl in *; [done|].
  apply andb_true_iff in H as [Hc H].
  destruct (isspace c).
  - apply andb_true_iff in H as [H1 H].
    apply andb_true_iff in H1 as [Heq Hp].
    apply N.eqb_eq in Heq. apply negb_true_iff in Hp. subst c p.
    f_equal. by apply IH.
  - f_equal. by apply IH.
Qed.

Lemma tidy_lstrip_id s : tidy true s = true -> lstrip s = s.
Proof.
  destruct s as [|c t]; simpl; [done|].
  destruct (isspace c); [|done].
  rewrite andb_false_r, andb_false_r. done.
Qed.

Lemma rstrip_idem s : rstrip (rstrip s) = rstrip s.
Proof.
  induction s as [|c t IH]; simpl; [done|].
  destruct (rstrip t) as [|d r] eqn:Hr.
  - destruct (isspace c) eqn:Hsp; simpl; [done|]. by rewrite Hsp.
  - change (rstrip (c :: d :: r)) with
      (match rstrip (d :: r) with [] => if isspace c then [] else [c]
                             | x => c :: x end).
    by rewrite IH.
Qed.

Lemma rstrip_length s : (length (rstrip s) <= length s)%nat.
Proof.
  induction s as [|c t IH]; simpl; [done|].
  destruct (rstrip t); [destruct (isspace c)|]; simpl in *; lia.
Qed.

Lemma rstrip_nonempty s :
  tidy true s = true -> s <> [] -> rstrip s <> [].
Proof.
  destruct s as [|c t]; [done|]. simpl. intros H _.
  destruct (isspace c).
  - rewrite andb_false_r, andb_false_r in H. done.
  - by destruct (rstrip t).
Qed.

Lemma rstrip_keeps_tail c t : t <> [] -> rstrip t = t -> rstrip (c :: t) = c :: t.
Proof. intros Hne Heq. simpl. rewrite Heq. by destruct t. Qed.

Lemma tidy_rstrip_id p s :
  tidy p s = true -> last s <> Some 32 -> rstrip s = s.
Proof.
  revert p. induction s as [|c t IH]; intros p H Hl; [done|].
  simpl in H. apply andb_true_iff in H as [Hc H].
  destruct t as [|d t'].
  - simpl in *. destruct (isspace c); [|done].
    apply andb_true_iff in H as [H _]. apply andb_true_iff in H as [H _].
    apply N.eqb_eq in H. by subst c.
  - apply rstrip_keeps_tail; [done|].
    change (last (c :: d :: t')) with (last (d :: t')) in Hl.
    destruct (isspace c).
    + apply andb_true_iff in H as [_ H]. by apply (IH true).
    + by apply (IH false).
Qed.

Lemma rstrip_last s c : last (rstrip s) = Some c -> isspace c = false.
Proof.
  induction s as [|d t IH]; simpl; [done|].
  destruct (rstrip t) as [|e r] eqn:Hr.
  - destruct (isspace d) eqn:Hd; simpl; [done|]. by intros [= <-].
  - change (last (d :: e :: r)) with (last (e :: r)). done.
Qed.

Lemma slice_to_200 s : slice_to 200 s = take 200 s.
Proof. done. Qed.

Lemma sanitize_unfold s :
  sanitize_filename s =
  str_or (take 200 (strip (re_sub_spaces (re_sub_class_empty disallowed (strip s)))))
         placeholder.
Proof.
  unfold sanitize_filename, sanitize_filename_len.
  rewrite slice_to_200. by destruct s.
Qed.

Lemma placeholder_tidy : tidy true placeholder = true.
Proof. reflexivity. Qed.

Lemma sanitize_tidy s : tidy true (sanitize_filename s) = true.
Proof.
  rewrite sanitize_unfold.
  set (y := take 200 _).
  assert (Hy : tidy true y = true).
  { subst y. apply tidy_take. unfold strip. apply tidy_rstrip.
    apply (tidy_lstrip false). apply tidy_collapse, filter_allowed. }
  destruct y; [apply placeholder_tidy | done].
Qed.

Lemma sanitize_nonempty s : sanitize_filename s <> [].
Proof.
  rewrite sanitize_unfold. by destruct (take 200 _).
Qed.

Lemma sanitize_length s : (length (sanitize_filename s) <= 200)%nat.
Proof.
  rewrite sanitize_unfold.
  destruct (take 200 _) as [|c t] eqn:Hy; [vm_compute; lia|].
  simpl str_or. rewrite <- Hy. rewrite length_take. lia.
Qed.

Lemma sanitize_twice s :
  sanitize_filename (sanitize_filename s) = rstrip (sanitize_filename s).
Proof.
  pose proof (sanitize_tidy s) as Ht.
  pose proof (sanitize_nonempty s) as Hne.
  pose proof (sanitize_length s) as Hlen.
  set (r := sanitize_filename s) in *.
  rewrite sanitize_unfold. unfold strip at 2.
  rewrite (tidy_lstrip_id r Ht).
  rewrite (tidy_filter true (rstrip r)) by by apply tidy_rstrip.
  unfold re_sub_spaces.
  rewrite (tidy_collapse_id false (rstrip r))
    by by apply tidy_weaken, tidy_rstrip.
  unfold strip.
  rewrite (tidy_lstrip_id (rstrip r)) by by apply tidy_rstrip.
  rewrite rstrip_idem.
  rewrite take_ge by (pose proof (rstrip_length r); lia).
  pose proof (rstrip_nonempty r Ht Hne).
  by destruct (rstrip r).
Qed.

Lemma allowed_spelled_out c :
  disallowed c = false -> ~ In c reserved /\ 31 < c.
Proof.
  unfold disallowed. intros H.
  repeat (apply orb_false_iff in H as [H ?]).
  repeat match goal with
         | E : (_ =? _) = false |- _ => apply N.eqb_neq in E
         | E : (_ <=? _) = false |- _ => apply N.leb_gt in E
         end.
  split; [|done].
  intros Hin. vm_compute in Hin. intuition congruence.
Qed.

Lemma lstrip_all (P : N -> bool) s :
  forallb P s = true -> forallb P (lstrip s) = true.
Proof.
  induction s as [|c t IH]; simpl; [done|].
  intros H. destruct (isspace c); [|done].
  apply andb_true_iff in H as [_ H]. auto.
Qed.

Lemma rstrip_all (P : N -> bool) s :
  forallb P s = true -> forallb P (rstrip s) = true.
Proof.
  induction s as [|c t IH]; simpl; [done|].
  intros H. apply andb_true_iff in H as [Hc H]. specialize (IH H).
  destruct (rstrip t) as [|d r].
  - destruct (isspace c); simpl; [done|]. by rewrite Hc.
  - simpl in *. by rewrite Hc, IH.
Qed.

Lemma filter_leaves_spaces s :
  forallb (fun c => isspace c || disallowed c) s = true ->
  forallb isspace (re_sub_class_empty disallowed s) = true.
Proof.
  unfold re_sub_class_empty. induction s as [|c t IH]; simpl; [done|].
  intros H. apply andb_true_iff in H as [Hc H].
  destruct (disallowed c); simpl; [auto|].
  rewrite orb_false_r in Hc. rewrite Hc. auto.
Qed.

Lemma collapse_run s : forallb isspace s = true -> collapse_from true s = [].
Proof.
  induction s as [|c t IH]; simpl; [done|].
  intros H. apply andb_true_iff in H as [-> H]. auto.
Qed.

Lemma strip_of_spaces s :
  forallb isspace s = true -> strip (re_sub_spaces s) = [].
Proof.
  unfold re_sub_spaces. destruct s as [|c t]; simpl; [done|].
  intros H. apply andb_true_iff in H as [-> H].
  by rewrite collapse_run.
Qed.

(** C3: for every input, the sanitized name contains none of the reserved
    characters (less-than, greater-than, colon, double quote, slash,
    backslash, bar, question mark, star) and no control character
    (code points 0 to 31), is at most 200 characters long and is not empty;
    an input made only of whitespace and removed characters (the empty
    input included) gives the placeholder [Playlist]. *)
Theorem sanitize_filename_contract (s : pystr) :
  (forall c, In c (sanitize_filename s) -> ~ In c reserved /\ 31 < c) /\
  (length (sanitize_filename s) <= 200)%nat /\
  sanitize_filename s <> [] /\
  (forallb (fun c => isspace c || disallowed c) s = true ->
   sanitize_filename s = py "Playlist").
Proof.
  split; [|split; [|split]].
  - intros c Hin. apply allowed_spelled_out.
    apply (tidy_allowed true (sanitize_filename s)); [apply sanitize_tidy | done].
  - apply sanitize_length.
  - apply sanitize_nonempty.
  - intros H. rewrite sanitize_unfold.
    rewrite strip_of_spaces; [done|].
    apply filter_leaves_spaces. unfold strip.
    by apply rstrip_all, lstrip_all.
Qed.

Lemma sanitize_filename_contract_witness :
  forallb (fun c => isspace c || disallowed c) (py " <?>  ") = true /\
  sanitize_filename (py " <?>  ") = py "Playlist" /\
  sanitize_filename [] = py "Playlist".
Proof.
  split; [reflexivity|]. split.
  - apply (proj2 (proj2 (proj2 (sanitize_filename_contract (py " <?>  "))))).
    reflexivity.
  - apply (proj2 (proj2 (proj2 (sanitize_filename_contract [])))).
    reflexivity.
Defined.

(** C2 as stated fails: the cut at 200 characters comes after the trimming
    and can leave a trailing space, which a second pass removes. *)
Lemma sanitize_filename_not_idempotent :
  sanitize_filename (sanitize_filename long_name) <> sanitize_filename long_name.
Proof.
  intros H. apply (f_equal length) in H. vm_compute in H. discriminate.
Qed.

Lemma sanitize_short_no_trailing_space s :
  (length (sanitize_filename s) < 200)%nat ->
  last (sanitize_filename s) <> Some 32.
Proof.
  rewrite sanitize_unfold. set (y := re_sub_spaces _).
  unfold strip. set (z := lstrip y). intros Hlen.
  destruct (decide (length (rstrip z) <= 200)%nat) as [Hle|Hgt].
  - rewrite take_ge in * by done.
    destruct (rstrip z) as [|c t] eqn:Hz; [vm_compute; congruence|].
    simpl str_or. rewrite <- Hz. intros Hl.
    by apply rstrip_last in Hl.
  - destruct (take 200 (rstrip z)) as [|c t] eqn:Hz.
    + apply (f_equal length) in Hz. rewrite length_take in Hz.
      change (length (@nil N)) with 0%nat in Hz. lia.
    + simpl str_or in Hlen. rewrite <- Hz, length_take in Hlen. lia.
Qed.

(** C2, amended: a second pass of the sanitizer only removes the trailing
    space that the cut at 200 characters may have left; so the sanitizer is
    idempotent exactly on the inputs whose sanitized name does not end in a
    space, which include all those whose sanitized name is shorter than
    200 characters. *)
Theorem sanitize_filename_second_pass (x : pystr) :
  sanitize_filename (sanitize_filename x) = rstrip (sanitize_filename x) /\
  (sanitize_filename (sanitize_filename x) = sanitize_filename x <->
   last (sanitize_filename x) <> Some 32) /\
  ((length (sanitize_filename x) < 200)%nat ->
   sanitize_filename (sanitize_filename x) = sanitize_filename x).
Proof.
  pose proof (sanitize_twice x) as Htw.
  assert (Hiff : sanitize_filename (sanitize_filename x) = sanitize_filename x <->
                 last (sanitize_filename x) <> Some 32).
  { rewrite Htw. split.
    - intros Heq Hl. rewrite <- Heq in Hl. by apply rstrip_last in Hl.
    - apply (tidy_rstrip_id true), sanitize_tidy. }
  split; [done|]. split; [done|].
  intros Hlen. by apply Hiff, sanitize_short_no_trailing_space.
Qed.

Lemma sanitize_filename_second_pass_witness :
  (length (sanitize_filename (py "  My: Mix  ")) < 200)%nat /\
  sanitize_filename (sanitize_filename (py "  My: Mix  ")) =
  sanitize_filename (py "  My: Mix  ").
Proof.
  split; [vm_compute; lia|].
  apply (proj2 (proj2 (sanitize_filename_second_pass (py "  My: Mix  ")))).
  vm_compute. lia.
Defined.

(** ** Identifier extraction and name resolution *)

Lemma match_chars_split pre s rest :
  match_chars pre s = Some rest -> exists m, s = m ++ rest.
Proof.
  revert s. induction pre as [|p pre IH]; intros s H; simpl in H.
  - exists []. by injection H as ->.
  - destruct s as [|c t]; [done|]. destruct (p c); [|done].
    destruct (IH _ H) as [m ->]. by exists (c :: m).
Qed.

Lemma take_while_split p s :
  forallb p (take_while p s) = true /\ exists post, s = take_while p s ++ post.
Proof.
  induction s as [|c t [IH1 [post IH2]]]; simpl.
  - split; [done | by exists []].
  - destruct (p c) eqn:Hc; simpl.
    + rewrite Hc, IH1. split; [done|]. exists post. by rewrite <- IH2.
    + split; [done | by exists (c :: t)].
Qed.

Lemma match_here_token pre s g :
  match_here pre s = Some g ->
  g <> [] /\ forallb is_alnum g = true /\ exists m post, s = m ++ g ++ post.
Proof.
  unfold match_here. destruct (match_chars pre s) as [rest|] eqn:Hm; [|done].
  destruct (take_while_split is_alnum rest) as [Hall [post Hpost]].
  destruct (take_while is_alnum rest) as [|c g'] eqn:Hg; [done|].
  intros [= <-]. split; [done|]. split; [done|].
  destruct (match_chars_split _ _ _ Hm) as [m ->].
  exists m, post. by rewrite <- Hpost.
Qed.

Lemma re_search_token pre s g :
  re_search pre s = Some g ->
  g <> [] /\ forallb is_alnum g = true /\ exists m post, s = m ++ g ++ post.
Proof.
  induction s as [|c t IH]; simpl.
  - destruct (match_here pre []) eqn:Hm; [|done].
    intros [= ->]. by apply (match_here_token pre).
  - destruct (match_here pre (c :: t)) eqn:Hm.
    + intros [= ->]. by apply (match_here_token pre).
    + intros H. destruct (IH H) as (Hne & Hall & m & post & ->).
      split; [done|]. split; [done|]. by exists (c :: m), post.
Qed.

(** C8: identifier extraction returns a result for every text (either the
    text itself or a non-empty run of ASCII letters and digits found in
    it); on [https://open.spotify.com/playlist/ABC123?si=xyz] it returns
    [ABC123]; a text in which no playlist pattern matches is returned
    unchanged, whether it is a bare token or not. *)
Theorem extract_playlist_id_total (s : pystr) :
  (extract_playlist_id s = s \/
   (extract_playlist_id s <> [] /\
    forallb is_alnum (extract_playlist_id s) = true /\
    exists m post, s = m ++ extract_playlist_id s ++ post)) /\
  extract_playlist_id (py "https://open.spotify.com/playlist/ABC123?si=xyz")
    = py "ABC123" /\
  (re_search pat_playlist s = None -> re_search pat_open_url s = None ->
   extract_playlist_id s = s).
Proof.
  split; [|split].
  - unfold extract_playlist_id.
    destruct (re_search pat_playlist s) as [g|] eqn:H1.
    { right. by apply (re_search_token pat_playlist). }
    destruct (re_search pat_open_url s) as [g|] eqn:H2.
    { right. by apply (re_search_token pat_open_url). }
    left. by destruct (fullmatch_alnum s).
  - reflexivity.
  - unfold extract_playlist_id. intros -> ->. by destruct (fullmatch_alnum s).
Qed.

Lemma extract_playlist_id_total_witness :
  re_search pat_playlist (py "my playlist #1") = None /\
  re_search pat_open_url (py "my playlist #1") = None /\
  fullmatch_alnum (py "my playlist #1") = false /\
  extract_playlist_id (py "my playlist #1") = py "my playlist #1".
Proof.
  split; [reflexivity|]. split; [reflexivity|]. split; [reflexivity|].
  apply (proj2 (proj2 (extract_playlist_id_total (py "my playlist #1"))));
    reflexivity.
Defined.

(** C7: when the API lookup and the page scrape both return nothing, the
    resolved name is the sanitized extracted identifier, and it is not
    empty. *)
Theorem resolve_playlist_name_fallback
    (api scrape : pystr -> option pystr) (url : pystr) :
  api (extract_playlist_id url) = None ->
  scrape (extract_playlist_id url) = None ->
  resolve_playlist_name api scrape url = sanitize_filename (extract_playlist_id url)
  /\ resolve_playlist_name api scrape url <> [].
Proof.
  intros Ha Hs. unfold resolve_playlist_name. rewrite Ha, Hs. simpl.
  split; [done | apply sanitize_nonempty].
Qed.

Lemma resolve_playlist_name_fallback_witness :
  resolve_playlist_name no_name no_name demo_bad = py "BAD".
Proof.
  apply (proj1 (resolve_playlist_name_fallback no_name no_name demo_bad
                  eq_refl eq_refl)).
Defined.

(** ** The save-file name *)

Lemma startswith_app p q : startswith p (p ++ q) = true.
Proof.
  induction p as [|c p IH]; simpl; [by destruct q|].
  by rewrite N.eqb_refl, IH.
Qed.

Lemma endswith_app s suf : endswith suf (s ++ suf) = true.
Proof. unfold endswith. rewrite rev_app_distr. apply startswith_app. Qed.



(** ** The post-processing decision *)

(** C9: post-processing is enabled by default; without a [post_strip] key
    in the configuration the disable flag turns it off; with the key, its
    truth value decides, whatever the flag.  So the key set to false with no
    flag disables it, and the flag with no key disables it. *)
Theorem do_post_strip_precedence (no_strip : bool) (cfg : gmap pystr json) :
  do_post_strip false ∅ = true /\
  (cfg !! py "post_strip" = None -> do_post_strip no_strip cfg = negb no_strip) /\
  (forall v, cfg !! py "post_strip" = Some v ->
             do_post_strip no_strip cfg = py_bool v) /\
  (cfg !! py "post_strip" = Some (JBool false) ->
   do_post_strip false cfg = false) /\
  (cfg !! py "post_strip" = None -> do_post_strip true cfg = false).
Proof.
  unfold do_post_strip. repeat split.
  - by intros ->.
  - by intros v ->.
  - by intros ->.
  - by intros ->.
Qed.

Lemma do_post_strip_precedence_witness :
  do_post_strip false {[ py "post_strip" := JBool false ]} = false /\
  do_post_strip true {[ py "output" := JString (py "{title}") ]} = false /\
  do_post_strip true {[ py "post_strip" := JInt 1 ]} = true.
Proof.
  split; [|split].
  - apply (proj1 (proj2 (proj2 (proj2
      (do_post_strip_precedence false {[ py "post_strip" := JBool false ]}))))).
    reflexivity.
  - apply (proj2 (proj2 (proj2 (proj2
      (do_post_strip_precedence true {[ py "output" := JString (py "{title}") ]}))))).
    reflexivity.
  - apply (proj1 (proj2 (proj2
      (do_post_strip_precedence true {[ py "post_strip" := JInt 1 ]})))
      (JInt 1)).
    reflexivity.
Defined.

(** ** The sync step *)

Ltac unfold_monad :=
  unfold mkdir_parents, os_path_exists, os_remove, shutil_move, os_getcwd,
    os_chdir, print, set_fs, get_world, raise, try_except, try_finally,
    mbind, M_bind, mret, M_ret in *.

Section ProgramProofs.
Variable exec : list arg -> list pystr -> fstore -> outcome * fstore.
Variable get_name_via_spotify_api : pystr -> option pystr.
Variable get_name_via_scrape : pystr -> option pystr.

Lemma prefix_in_inits {A} (d l : list A) : d `prefix_of` l -> In d (inits l).
Proof.
  revert d. induction l as [|x l IH]; intros d [k Hk].
  - destruct d; [by left | done].
  - destruct d as [|y d]; [by left|].
    injection Hk as -> ->. right. apply in_map, IH. by exists k.
Qed.

(** C6: the sync step leaves the working directory of the script as it
    found it, on every path: when the folder cannot be created, on the
    early return of a dry run, when the tool returns, and when launching
    or running the tool raises. *)
Theorem sync_step_restores_cwd
    (url : pystr) (folder : path) (name : pystr) (dry_run : bool) (w : world) :
  w_cwd (snd (run_spotdl_sync_into_folder exec url folder name dry_run w))
  = w_cwd w.
Proof.
  unfold run_spotdl_sync_into_folder, subprocess_run. unfold_monad. simpl.
  destruct (existsb _ _); [done|]. simpl.
  destruct dry_run; [done|]. simpl.
  destruct (exec _ _ _) as [[c| |] fs']; simpl; [|done|done].
  by destruct (c =? 0)%Z.
Qed.

(** Meanwhile the step did work inside the folder: the line it prints
    reports the folder as working directory. *)
Lemma sync_step_runs_in_folder url folder name dry_run w :
  existsb (is_file (w_fs w)) (inits (resolve (w_cwd w) folder)) = false ->
  In (EvRunning (resolve (w_cwd w) folder)
                (spotdl_cmd (before_query url) (save_file_name name)))
     (w_out (snd (run_spotdl_sync_into_folder exec url folder name dry_run w))).
Proof.
  intros Hfree.
  unfold run_spotdl_sync_into_folder, subprocess_run. unfold_monad. simpl.
  rewrite Hfree. simpl.
  destruct dry_run; simpl.
  - rewrite !in_app_iff. simpl. tauto.
  - destruct (exec _ _ _) as [[c| |] fs'] eqn:He; simpl;
      rewrite !in_app_iff; simpl; tauto.
Qed.

(** C10: in a dry run the sync step launches no tool, and when it returns
    the destination folder and all its ancestors are directories of the
    store; it does return whenever no regular file stands at the folder
    or at one of its ancestors. *)
Theorem dry_run_creates_folder
    (url : pystr) (folder : path) (name : pystr) (w : world) :
  w_cmds (snd (run_spotdl_sync_into_folder exec url folder name true w))
  = w_cmds w /\
  (fst (run_spotdl_sync_into_folder exec url folder name true w) = Ok tt ->
   forall d, d `prefix_of` resolve (w_cwd w) folder ->
     d ∈ dirs (w_fs (snd (run_spotdl_sync_into_folder exec url folder name true w)))) /\
  (existsb (is_file (w_fs w)) (inits (resolve (w_cwd w) folder)) = false ->
   fst (run_spotdl_sync_into_folder exec url folder name true w) = Ok tt).
Proof.
  unfold run_spotdl_sync_into_folder. unfold_monad. simpl.
  destruct (existsb _ _) eqn:Hfree; simpl.
  - done.
  - split; [done|]. split; [|done].
    intros _ d Hd. apply elem_of_union_l, elem_of_list_to_set.
    by apply list_elem_of_In, prefix_in_inits.
Qed.

(** *** Post-processing *)





Lemma for_each_ok {A} (R : world -> world -> Prop) (body : A -> M unit) :
  (forall w, R w w) ->
  (forall w1 w2 w3, R w1 w2 -> R w2 w3 -> R w1 w3) ->
  (forall x w, exists w', body x w = (Ok tt, w') /\ R w w') ->
  forall xs w, exists w', for_each xs body w = (Ok tt, w') /\ R w w'.
Proof.
  intros Hrefl Htrans Hbody xs.
  induction xs as [|x xs IH]; intros w; simpl.
  - exists w. by split.
  - destruct (Hbody x w) as (w1 & Hx & HR1).
    destruct (IH w1) as (w2 & Hxs & HR2).
    exists w2. unfold mbind, M_bind. rewrite Hx. split; [done|].
    by apply (Htrans _ w1).
Qed.

Lemma for_each_cons {A} (body : A -> M unit) x xs w w' :
  body x w = (Ok tt, w') ->
  for_each (x :: xs) body w = for_each xs body w'.
Proof. intros H. simpl. unfold mbind, M_bind. by rewrite H. Qed.

Lemma processed_snoc out e :
  processed (out ++ [e]) =
  processed out ++ match e with EvProcessing u => [u] | _ => [] end.
Proof. unfold processed. rewrite omap_app. by destruct e. Qed.

Lemma strip_one_failure ffmpeg_cmd root rel f w c fs' :
  endswith (py ".mp3") (lower f) = true ->
  exec (ffmpeg_cmdline ffmpeg_cmd (path_join root f)
          (path_add_suffix (path_join root f) tmp_suffix))
       (w_cwd w) (w_fs w) = (Exited c, fs') ->
  c <> 0%Z ->
  output_not_dir fs'
    (resolve (w_cwd w) (path_add_suffix (path_join root f) tmp_suffix)) ->
  exists w',
    strip_one exec ffmpeg_cmd root rel f w = (Ok tt, w') /\
    files (w_fs w') =
      delete (resolve (w_cwd w) (path_add_suffix (path_join root f) tmp_suffix))
             (files fs') /\
    same_refs w w'.
Proof.
  intros Hmp3 Hexec Hc Hout. unfold strip_one. rewrite Hmp3.
  unfold subprocess_run. unfold_monad. rewrite Hexec.
  apply Z.eqb_neq in Hc. rewrite Hc. simpl.
  unfold is_file. simpl.
  destruct (files fs' !! resolve (w_cwd w)
              (path_add_suffix (path_join root f) tmp_suffix))
    as [data|] eqn:Htmp; simpl; rewrite ?Htmp.
  - rewrite ?bool_decide_true by eauto. simpl. rewrite ?Htmp.
    rewrite ?bool_decide_true by eauto.
    eexists. split; [done|]. simpl.
    split; [done|]. unfold same_refs. simpl. rewrite processed_snoc.
    apply app_nil_r.
  - rewrite ?bool_decide_false by (by intros [? ?]). simpl.
    destruct Hout as [[? Hsome]|Hdir]; [congruence|]. rewrite Hdir.
    eexists. split; [done|]. simpl. split.
    + by rewrite delete_id.
    + unfold same_refs. simpl. rewrite processed_snoc. apply app_nil_r.
Qed.

Lemma strip_one_success ffmpeg_cmd root rel f w fs' data :
  endswith (py ".mp3") (lower f) = true ->
  exec (ffmpeg_cmdline ffmpeg_cmd (path_join root f)
          (path_add_suffix (path_join root f) tmp_suffix))
       (w_cwd w) (w_fs w) = (Exited 0, fs') ->
  files fs' !! resolve (w_cwd w) (path_add_suffix (path_join root f) tmp_suffix)
    = Some data ->
  exists w',
    strip_one exec ffmpeg_cmd root rel f w = (Ok tt, w') /\
    files (w_fs w') =
      <[resolve (w_cwd w) (path_join root f) := data]>
        (delete (resolve (w_cwd w) (path_add_suffix (path_join root f) tmp_suffix))
                (files fs')) /\
    same_refs w w'.
Proof.
  intros Hmp3 Hexec Htmp. unfold strip_one. rewrite Hmp3.
  unfold subprocess_run. unfold_monad. rewrite Hexec. simpl.
  rewrite Htmp. simpl. eexists. split; [done|]. simpl. split; [done|].
  unfold same_refs. simpl. rewrite processed_snoc. apply app_nil_r.
Qed.

Lemma strip_one_ok ffmpeg_cmd root rel f w :
  strip_tool_ok exec ffmpeg_cmd ->
  exists w', strip_one exec ffmpeg_cmd root rel f w = (Ok tt, w') /\ same_refs w w'.
Proof.
  intros Hok.
  destruct (endswith (py ".mp3") (lower f)) eqn:Hmp3.
  2:{ unfold strip_one. rewrite Hmp3. by exists w. }
  specialize (Hok (path_join root f)
                  (path_add_suffix (path_join root f) tmp_suffix)
                  (w_cwd w) (w_fs w)).
  destruct (exec _ _ _) as [[c| |] fs'] eqn:Hexec; try done.
  destruct (decide (c = 0%Z)) as [->|Hc].
  - destruct (proj1 Hok eq_refl) as [data Hdata].
    destruct (strip_one_success _ _ rel _ _ _ _ Hmp3 Hexec Hdata)
      as (w' & Hrun & _ & Hrefs).
    by exists w'.
  - destruct (strip_one_failure _ _ rel _ _ _ _ Hmp3 Hexec Hc (proj2 Hok Hc))
      as (w' & Hrun & _ & Hrefs).
    by exists w'.
Qed.

Lemma same_refs_refl w : same_refs w w.
Proof. done. Qed.

Lemma same_refs_trans w1 w2 w3 :
  same_refs w1 w2 -> same_refs w2 w3 -> same_refs w1 w3.
Proof. unfold same_refs. congruence. Qed.

Lemma strip_folder_ok ffmpeg_cmd folder dry_run w :
  strip_tool_ok exec ffmpeg_cmd ->
  exists w',
    strip_mp3_metadata_in_folder exec folder ffmpeg_cmd dry_run w = (Ok tt, w')
    /\ same_refs w w'.
Proof.
  intros Hok. unfold strip_mp3_metadata_in_folder.
  destruct dry_run.
  { eexists. split; [done|]. unfold same_refs. simpl.
    rewrite processed_snoc. apply app_nil_r. }
  unfold mbind at 1, M_bind at 1, get_world at 1.
  apply (for_each_ok same_refs); [apply same_refs_refl|apply same_refs_trans|].
  intros rel w1. unfold strip_dir.
  unfold mbind at 1, M_bind at 1, get_world at 1.
  apply (for_each_ok same_refs); [apply same_refs_refl|apply same_refs_trans|].
  intros f w2. by apply strip_one_ok.
Qed.


(** *** The main loop *)

Lemma sync_step_outcome url folder name dry_run w :
  sync_not_interrupted exec ->
  same_refs w (snd (run_spotdl_sync_into_folder exec url folder name dry_run w))
  /\ match fst (run_spotdl_sync_into_folder exec url folder name dry_run w) with
     | Ok _ => True
     | Raise e => is_Exception e = true
     end.
Proof.
  intros Hni. unfold same_refs.
  unfold run_spotdl_sync_into_folder, subprocess_run. unfold_monad. simpl.
  destruct (existsb _ _); [done|]. simpl.
  destruct dry_run; simpl.
  { rewrite !processed_snoc, !app_nil_r. done. }
  specialize (Hni (before_query url) (save_file_name name)
                  (resolve (w_cwd w) folder)
                  (FStore (files (w_fs w))
                     (list_to_set (inits (resolve (w_cwd w) folder))
                      ∪ dirs (w_fs w)))).
  destruct (exec _ _ _) as [[c| |] fs']; simpl in *;
    rewrite ?processed_snoc, ?app_nil_r; [|done|done].
  by destruct (c =? 0)%Z.
Qed.

Lemma process_one_sync_failed base_dir dry_run post_strip ffmpeg_cmd url w e w1 :
  run_spotdl_sync_into_folder exec url
    (path_div base_dir
       (resolve_playlist_name get_name_via_spotify_api get_name_via_scrape url))
    (resolve_playlist_name get_name_via_spotify_api get_name_via_scrape url)
    dry_run
    (logged (logged w (EvProcessing url))
       (EvResolved
          (resolve_playlist_name get_name_via_spotify_api get_name_via_scrape url)))
  = (Raise e, w1) ->
  is_Exception e = true ->
  exists ev,
    (ev = EvSpotdlFailed url \/ ev = EvUnexpected url) /\
    process_one exec get_name_via_spotify_api get_name_via_scrape
      base_dir dry_run post_strip ffmpeg_cmd url w = (Ok tt, logged w1 ev).
Proof.
  intros Hrun He. unfold process_one.
  unfold mbind, M_bind, try_except, print, mret, M_ret.
  unfold logged in Hrun. simpl in *. rewrite Hrun.
  destruct e; simpl in *; try done.
  - exists (EvSpotdlFailed url). by split; [left|].
  - exists (EvUnexpected url). by split; [right|].
Qed.

Lemma process_one_synced base_dir dry_run (post_strip : bool) ffmpeg_cmd url w w1 :
  run_spotdl_sync_into_folder exec url
    (path_div base_dir
       (resolve_playlist_name get_name_via_spotify_api get_name_via_scrape url))
    (resolve_playlist_name get_name_via_spotify_api get_name_via_scrape url)
    dry_run
    (logged (logged w (EvProcessing url))
       (EvResolved
          (resolve_playlist_name get_name_via_spotify_api get_name_via_scrape url)))
  = (Ok tt, w1) ->
  strip_step_safe exec ffmpeg_cmd dry_run post_strip ->
  exists w2,
    (if post_strip
     then strip_mp3_metadata_in_folder exec
            (path_div base_dir
               (resolve_playlist_name get_name_via_spotify_api
                  get_name_via_scrape url))
            ffmpeg_cmd dry_run
     else mret tt) w1 = (Ok tt, w2) /\
    same_refs w1 w2 /\
    process_one exec get_name_via_spotify_api get_name_via_scrape
      base_dir dry_run post_strip ffmpeg_cmd url w
    = (Ok tt,
       logged w2
         (EvDone (resolve_playlist_name get_name_via_spotify_api
                    get_name_via_scrape url))).
Proof.
  intros Hrun Hok.
  set (name := resolve_playlist_name get_name_via_spotify_api
                 get_name_via_scrape url) in *.
  assert (exists w2,
            (if post_strip
             then strip_mp3_metadata_in_folder exec (path_div base_dir name)
                    ffmpeg_cmd dry_run
             else mret tt) w1 = (Ok tt, w2) /\ same_refs w1 w2)
    as (w2 & Hstrip & Hrefs2).
  { destruct post_strip; [|by exists w1].
    destruct Hok as [Hoff|[-> | Hok]]; [done| |by apply strip_folder_ok].
    eexists. split; [done|]. unfold same_refs. simpl.
    rewrite processed_snoc. apply app_nil_r. }
  exists w2. split; [done|]. split; [done|].
  unfold process_one.
  unfold mbind, M_bind, try_except, print at 1 2, mret, M_ret.
  fold name. unfold logged in Hrun. simpl in Hrun. simpl.
  rewrite Hrun. unfold mret, M_ret in Hstrip. by rewrite Hstrip.
Qed.

Lemma process_one_ok base_dir dry_run post_strip ffmpeg_cmd url w :
  sync_not_interrupted exec ->
  strip_step_safe exec ffmpeg_cmd dry_run post_strip ->
  exists w',
    process_one exec get_name_via_spotify_api get_name_via_scrape
      base_dir dry_run post_strip ffmpeg_cmd url w = (Ok tt, w')
    /\ processed (w_out w') = processed (w_out w) ++ [url].
Proof.
  intros Hni Hok.
  set (name := resolve_playlist_name get_name_via_spotify_api
                 get_name_via_scrape url).
  set (w0 := logged (logged w (EvProcessing url)) (EvResolved name)).
  assert (Hw0 : processed (w_out w0) = processed (w_out w) ++ [url]).
  { unfold w0, logged. simpl. rewrite !processed_snoc. apply app_nil_r. }
  destruct (sync_step_outcome url (path_div base_dir name) name dry_run w0 Hni)
    as [Hrefs Hexn].
  destruct (run_spotdl_sync_into_folder exec url (path_div base_dir name) name
              dry_run w0) as [r w1] eqn:Hrun.
  simpl in Hrefs, Hexn. unfold same_refs in Hrefs.
  destruct r as [[]|e].
  - destruct (process_one_synced base_dir dry_run post_strip ffmpeg_cmd url w w1
                Hrun Hok) as (w2 & _ & Hrefs2 & Hone).
    exists (logged w2 (EvDone name)). split; [done|].
    unfold logged. simpl. rewrite processed_snoc, app_nil_r.
    unfold same_refs in Hrefs2. congruence.
  - destruct (process_one_sync_failed base_dir dry_run post_strip ffmpeg_cmd
                url w e w1 Hrun Hexn) as (ev & Hev & Hone).
    exists (logged w1 ev). split; [done|].
    unfold logged. simpl. rewrite processed_snoc.
    destruct Hev as [-> | ->]; rewrite app_nil_r; congruence.
Qed.

Lemma batch_ok base_dir dry_run post_strip ffmpeg_cmd lines w :
  sync_not_interrupted exec ->
  strip_step_safe exec ffmpeg_cmd dry_run post_strip ->
  exists w',
    for_each lines
      (process_one exec get_name_via_spotify_api get_name_via_scrape
         base_dir dry_run post_strip ffmpeg_cmd) w = (Ok tt, w')
    /\ processed (w_out w') = processed (w_out w) ++ lines.
Proof.
  intros Hni Hok. revert w.
  induction lines as [|url lines IH]; intros w.
  - exists w. by rewrite app_nil_r.
  - destruct (process_one_ok base_dir dry_run post_strip ffmpeg_cmd url w Hni Hok)
      as (w1 & Hone & Hp1).
    destruct (IH w1) as (w2 & Hrest & Hp2).
    exists w2. rewrite (for_each_cons _ _ _ _ _ Hone). split; [done|].
    rewrite Hp2, Hp1, <- app_assoc. done.
Qed.

(** C1: a reference whose sync step raises (the tool exits with a
    non-zero status, or something else goes wrong) is given up after one
    line of output, with no post-processing, and the loop goes on with the
    remaining references.  A reference whose sync step returns is
    post-processed and reported done, provided post-processing has nothing
    to raise: it is switched off, or the run is dry, or the strip tool runs
    to an exit status on every file, with its output written when the
    status is 0 and no directory at its output path otherwise.  Under the
    same proviso, when no run of the sync tool is interrupted, the loop
    announces every reference of the list, in order, and the script ends
    with exit code 0. *)
Theorem main_loop_isolates_failures
    (base_dir : path) (dry_run post_strip : bool) (ffmpeg_cmd : pystr) :
  (forall url rest w e w1,
     run_spotdl_sync_into_folder exec url
       (path_div base_dir
          (resolve_playlist_name get_name_via_spotify_api get_name_via_scrape url))
       (resolve_playlist_name get_name_via_spotify_api get_name_via_scrape url)
       dry_run
       (logged (logged w (EvProcessing url))
          (EvResolved
             (resolve_playlist_name get_name_via_spotify_api
                get_name_via_scrape url)))
     = (Raise e, w1) ->
     is_Exception e = true ->
     exists ev,
       (ev = EvSpotdlFailed url \/ ev = EvUnexpected url) /\
       for_each (url :: rest)
         (process_one exec get_name_via_spotify_api get_name_via_scrape
            base_dir dry_run post_strip ffmpeg_cmd) w
       = for_each rest
           (process_one exec get_name_via_spotify_api get_name_via_scrape
              base_dir dry_run post_strip ffmpeg_cmd) (logged w1 ev)) /\
  (forall url w w1,
     run_spotdl_sync_into_folder exec url
       (path_div base_dir
          (resolve_playlist_name get_name_via_spotify_api get_name_via_scrape url))
       (resolve_playlist_name get_name_via_spotify_api get_name_via_scrape url)
       dry_run
       (logged (logged w (EvProcessing url))
          (EvResolved
             (resolve_playlist_name get_name_via_spotify_api
                get_name_via_scrape url)))
     = (Ok tt, w1) ->
     strip_step_safe exec ffmpeg_cmd dry_run post_strip ->
     exists w2,
       process_one exec get_name_via_spotify_api get_name_via_scrape
         base_dir dry_run post_strip ffmpeg_cmd url w
       = (Ok tt,
          logged w2
            (EvDone (resolve_playlist_name get_name_via_spotify_api
                       get_name_via_scrape url)))) /\
  (sync_not_interrupted exec ->
   strip_step_safe exec ffmpeg_cmd dry_run post_strip ->
   forall lines w,
     fst (main_loop exec get_name_via_spotify_api get_name_via_scrape
            base_dir dry_run post_strip ffmpeg_cmd lines w) = Ok tt /\
     exit_code (fst (main_loop exec get_name_via_spotify_api get_name_via_scrape
                       base_dir dry_run post_strip ffmpeg_cmd lines w)) = 0%Z /\
     processed (w_out (snd (main_loop exec get_name_via_spotify_api
                              get_name_via_scrape base_dir dry_run post_strip
                              ffmpeg_cmd lines w)))
     = processed (w_out w) ++ lines).
Proof.
  split; [|split].
  - intros url rest w e w1 Hrun He.
    destruct (process_one_sync_failed base_dir dry_run post_strip ffmpeg_cmd
                url w e w1 Hrun He) as (ev & Hev & Hone).
    exists ev. split; [done|]. by apply for_each_cons.
  - intros url w w1 Hrun Hok.
    destruct (process_one_synced base_dir dry_run post_strip ffmpeg_cmd url w w1
                Hrun Hok) as (w2 & _ & _ & Hone).
    by exists w2.
  - intros Hni Hok lines w.
    destruct (batch_ok base_dir dry_run post_strip ffmpeg_cmd lines w Hni Hok)
      as (w' & Hloop & Hp).
    unfold main_loop. unfold mbind, M_bind, try_except, print.
    rewrite Hloop. simpl. split; [done|]. split; [done|].
    rewrite processed_snoc, app_nil_r. done.
Qed.
End ProgramProofs.

Lemma dry_run_creates_folder_witness :
  fst (run_spotdl_sync_into_folder demo_exec demo_bad demo_folder (py "AAA") true
         demo_world) = Ok tt /\
  [py "home"; py "Music"; py "AAA"]
    ∈ dirs (w_fs (snd (run_spotdl_sync_into_folder demo_exec demo_bad demo_folder
                         (py "AAA") true demo_world))) /\
  [py "home"; py "Music"]
    ∈ dirs (w_fs (snd (run_spotdl_sync_into_folder demo_exec demo_bad demo_folder
                         (py "AAA") true demo_world))) /\
  [py "home"; py "Music"] ∉ dirs (w_fs demo_world).
Proof.
  pose proof (dry_run_creates_folder demo_exec demo_bad demo_folder (py "AAA")
                demo_world) as (_ & Hdirs & Hret).
  specialize (Hret eq_refl). specialize (Hdirs Hret).
  split; [exact Hret|]. split; [|split].
  - apply Hdirs. by exists [].
  - apply Hdirs. by exists [py "AAA"].
  - intros H. vm_compute in H. discriminate H.
Defined.

(** ** The small run, checked *)

Lemma demo_sync_not_interrupted : sync_not_interrupted demo_exec.
Proof.
  intros url save_name cwd fs. unfold spotdl_cmd, demo_exec.
  by destruct (decide _).
Qed.

Lemma demo_strip_tool_ok : strip_tool_ok demo_exec (py "ffmpeg").
Proof.
  intros full tmp cwd fs. simpl. split; [|done]. intros _.
  rewrite lookup_insert_eq. eauto.
Qed.


Lemma main_loop_isolates_failures_witness :
  fst demo_run = Ok tt /\
  exit_code (fst demo_run) = 0%Z /\
  processed (w_out (snd demo_run)) = demo_lines /\
  In (EvSpotdlFailed demo_bad) (w_out (snd demo_run)) /\
  completed (w_out (snd demo_run)) = [py "AAA"; py "CCC"].
Proof.
  destruct (proj2 (proj2 (main_loop_isolates_failures demo_exec no_name no_name
                            demo_base false true (py "ffmpeg")))
              demo_sync_not_interrupted
              (or_intror (or_intror demo_strip_tool_ok))
              demo_lines demo_world) as (Hok & Hcode & Hrefs).
  split; [exact Hok|]. split; [exact Hcode|]. split; [exact Hrefs|].
  split; [|by vm_compute].
  vm_compute. tauto.
Defined.



(** * Further properties of the script *)

(** ** More on the sanitizer *)

Lemma tidy_spaces p s c :
  tidy p s = true -> In c s -> isspace c = true -> c = 32.
Proof.
  revert p. induction s as [|d t IH]; intros p H Hin Hsp; simpl in *; [done|].
  apply andb_true_iff in H as [_ H].
  destruct Hin as [->|Hin].
  - rewrite Hsp in H. apply andb_true_iff in H as [H _].
    apply andb_true_iff in H as [H _]. by apply N.eqb_eq in H.
  - destruct (isspace d).
    + apply andb_true_iff in H as [_ H]. by apply (IH true).
    + by apply (IH false).
Qed.

Lemma tidy_no_double p s i :
  tidy p s = true -> s !! i = Some 32 -> s !! S i <> Some 32.
Proof.
  revert p i. induction s as [|d t IH]; intros p i H Hi; [done|].
  simpl in H. apply andb_true_iff in H as [_ H].
  destruct i as [|i].
  - injection Hi as ->. simpl in H.
    apply andb_true_iff in H as [_ H].
    destruct t as [|e t]; [done|]. simpl. intros [= ->].
    simpl in H. done.
  - destruct (isspace d).
    + apply andb_true_iff in H as [_ H]. by apply (IH true).
    + by apply (IH false).
Qed.

(** X1: in a sanitized name every whitespace character is a plain space,
    the name does not start with a space, and no space follows a space. *)
Theorem sanitize_filename_spacing (s : pystr) :
  (forall c, In c (sanitize_filename s) -> isspace c = true -> c = 32) /\
  head (sanitize_filename s) <> Some 32 /\
  (forall i, sanitize_filename s !! i = Some 32 ->
             sanitize_filename s !! S i <> Some 32).
Proof.
  pose proof (sanitize_tidy s) as Ht.
  split; [|split].
  - intros c. by apply (tidy_spaces true).
  - destruct (sanitize_filename s) as [|c t]; [done|].
    simpl. intros [= ->]. simpl in Ht. done.
  - intros i. by apply (tidy_no_double true).
Qed.

(** X2: a name that is already clean is returned as it is: not empty, at
    most 200 characters, of the tidy shape and without a trailing space. *)
Theorem sanitize_filename_keeps_clean (s : pystr) :
  tidy true s = true -> s <> [] -> last s <> Some 32 ->
  (length s <= 200)%nat ->
  sanitize_filename s = s.
Proof.
  intros Ht Hne Hlast Hlen.
  pose proof (tidy_rstrip_id true s Ht Hlast) as Hr.
  rewrite sanitize_unfold. unfold strip at 2.
  rewrite (tidy_lstrip_id s Ht), Hr.
  rewrite (tidy_filter true s Ht). unfold re_sub_spaces.
  rewrite (tidy_collapse_id false s) by by apply tidy_weaken.
  unfold strip. rewrite (tidy_lstrip_id s Ht), Hr.
  rewrite take_ge by done. by destruct s.
Qed.

Lemma sanitize_filename_keeps_clean_witness :
  sanitize_filename (py "Road Trip 2024 - vol.2") = py "Road Trip 2024 - vol.2".
Proof.
  apply sanitize_filename_keeps_clean;
    [reflexivity | discriminate | discriminate | vm_compute; lia].
Defined.

(** X3: with another bound the result is still never empty; for a bound
    that is not negative its length is at most the larger of the bound and
    the 8 characters of the placeholder, and the bound 0 always gives the
    placeholder. *)
Theorem sanitize_filename_len_bound (s : pystr) (max_len : Z) :
  sanitize_filename_len s max_len <> [] /\
  ((0 <= max_len)%Z ->
   (length (sanitize_filename_len s max_len) <= Nat.max (Z.to_nat max_len) 8)%nat) /\
  sanitize_filename_len s 0 = py "Playlist".
Proof.
  unfold sanitize_filename_len. split; [|split].
  - by destruct (slice_to _ _).
  - intros Hk. unfold slice_to.
    destruct (max_len <? 0)%Z eqn:Hneg; [apply Z.ltb_lt in Hneg; lia|].
    destruct (take _ _) as [|c t] eqn:Ht.
    + simpl str_or. vm_compute (length placeholder). lia.
    + simpl str_or. rewrite <- Ht, length_take. lia.
  - reflexivity.
Qed.

Lemma sanitize_filename_len_bound_witness :
  (length (sanitize_filename_len (py " ? ") 3) <= Nat.max (Z.to_nat 3) 8)%nat /\
  length (sanitize_filename_len (py " ? ") 3) = 8%nat.
Proof.
  split; [|reflexivity].
  apply (proj1 (proj2 (sanitize_filename_len_bound (py " ? ") 3))). lia.
Defined.

(** ** More on identifier extraction *)

Lemma match_chars_app a b s rest :
  match_chars (a ++ b) s = Some rest <->
  exists mid, match_chars a s = Some mid /\ match_chars b mid = Some rest.
Proof.
  revert s. induction a as [|p a IH]; intros s; simpl.
  - split; [intros H; by exists s | by intros (mid & [= ->] & H)].
  - destruct s as [|c t].
    + split; [done | by intros (mid & ? & _)].
    + destruct (p c); [apply IH|].
      split; [done | by intros (mid & ? & _)].
Qed.

Lemma match_chars_lit l s rest :
  match_chars (List.map (fun c => N.eqb c) l) s = Some rest -> s = l ++ rest.
Proof.
  revert s. induction l as [|x l IH]; intros s; simpl.
  - by intros [= ->].
  - destruct s as [|c t]; [done|].
    destruct (x =? c) eqn:Hx; [|done].
    apply N.eqb_eq in Hx as ->. intros H. by rewrite (IH _ H).
Qed.

Lemma match_chars_one p s rest :
  match_chars [p] s = Some rest -> exists c, s = c :: rest /\ p c = true.
Proof.
  destruct s as [|c t]; simpl; [done|].
  destruct (p c) eqn:Hp; [|done]. intros [= ->]. by exists c.
Qed.

Lemma take_while_stops p s :
  exists post, s = take_while p s ++ post /\
               forall c, head post = Some c -> p c = false.
Proof.
  induction s as [|c t (post & IH1 & IH2)]; simpl.
  - exists []. by split.
  - destruct (p c) eqn:Hc.
    + exists post. split; [simpl; congruence | done].
    + exists (c :: t). split; [done|]. by intros d [= <-].
Qed.

Lemma re_search_found pre s g :
  re_search pre s = Some g ->
  exists k t, s = k ++ t /\ match_here pre t = Some g.
Proof.
  induction s as [|c t IH]; simpl.
  - destruct (match_here pre []) eqn:Hm; [|done].
    intros [= ->]. by exists [], [].
  - destruct (match_here pre (c :: t)) eqn:Hm.
    + intros [= ->]. by exists [], (c :: t).
    + intros H. destruct (IH H) as (k & t' & -> & Ht).
      by exists (c :: k), t'.
Qed.

Lemma re_search_none pre s :
  (forall k t, s = k ++ t -> match_here pre t = None) ->
  re_search pre s = None.
Proof.
  induction s as [|c t IH]; intros H; simpl.
  - by rewrite (H [] []).
  - rewrite (H [] (c :: t)) by done.
    apply IH. intros k t' ->. by apply (H (c :: k)).
Qed.

Lemma re_search_none_inv pre s k t :
  re_search pre s = None -> s = k ++ t -> match_here pre t = None.
Proof.
  revert k. induction s as [|c s IH]; intros k H Hs; simpl in H.
  - destruct k; [|done]. simpl in Hs. subst t.
    by destruct (match_here pre []).
  - destruct (match_here pre (c :: s)) eqn:Hm; [done|].
    destruct k as [|d k]; simpl in Hs.
    + by subst t.
    + injection Hs as -> ->. by apply (IH k).
Qed.

Lemma pat_playlist_shape t rest :
  match_chars pat_playlist t = Some rest ->
  exists sep, t = py "playlist" ++ sep :: rest /\ is_sep sep = true.
Proof.
  unfold pat_playlist. intros H.
  apply match_chars_app in H as (mid & H1 & H2).
  apply match_chars_lit in H1 as ->.
  apply match_chars_one in H2 as (sep & -> & Hsep). by exists sep.
Qed.

Lemma sep_not_alnum c : is_sep c = true -> is_alnum c = false.
Proof.
  unfold is_sep. intros H. apply orb_true_iff in H as [H|H];
    apply N.eqb_eq in H; by subst c.
Qed.

Lemma alnum_no_marker s :
  forallb is_alnum s = true -> re_search pat_playlist s = None.
Proof.
  intros Hall. apply re_search_none. intros k t ->.
  unfold match_here.
  destruct (match_chars pat_playlist t) as [rest|] eqn:Hm; [|done].
  apply pat_playlist_shape in Hm as (sep & -> & Hsep).
  apply sep_not_alnum in Hsep.
  rewrite !forallb_app in Hall. simpl in Hall.
  rewrite Hsep in Hall. rewrite !andb_false_r in Hall. done.
Qed.

Lemma open_url_needs_marker t g :
  match_here pat_open_url t = Some g ->
  exists m t', t = m ++ t' /\ match_here pat_playlist t' = Some g.
Proof.
  unfold match_here.
  destruct (match_chars pat_open_url t) as [rest|] eqn:Hm; [|done].
  change pat_open_url with
    (lit "open.spotify.com/" ++ (lit "playlist" ++ [fun c => 47 =? c])) in Hm.
  apply match_chars_app in Hm as (mid & H1 & H2).
  apply match_chars_lit in H1.
  apply match_chars_app in H2 as (mid2 & H2 & H3).
  apply match_chars_one in H3 as (sep & -> & Hsep).
  intros Hg. exists (py "open.spotify.com/"), mid. split; [done|].
  assert (match_chars pat_playlist mid = Some rest) as ->; [|done].
  unfold pat_playlist. apply match_chars_app. exists (sep :: rest).
  split; [done|]. simpl. unfold is_sep. by rewrite N.eqb_sym, Hsep.
Qed.

Lemma open_url_none s :
  re_search pat_playlist s = None -> re_search pat_open_url s = None.
Proof.
  intros Hnone. apply re_search_none. intros k t ->.
  destruct (match_here pat_open_url t) as [g|] eqn:Hm; [|done].
  apply open_url_needs_marker in Hm as (m & t' & -> & Hm).
  rewrite <- (re_search_none_inv pat_playlist _ (k ++ m) t' Hnone), Hm; [done|].
  by rewrite app_assoc.
Qed.

(** X4: the second pattern of [extract_playlist_id] never decides: where
    it matches, the first pattern has matched already. *)
Theorem second_pattern_is_dead (s : pystr) :
  re_search pat_playlist s = None -> re_search pat_open_url s = None.
Proof. apply open_url_none. Qed.

Lemma second_pattern_is_dead_witness :
  re_search pat_open_url (py "open.spotify.com/album/XYZ") = None.
Proof. apply second_pattern_is_dead. reflexivity. Defined.

(** X5: a bare token of ASCII letters and digits is its own identifier,
    even when it contains the word playlist. *)
Theorem extract_playlist_id_bare_token (s : pystr) :
  fullmatch_alnum s = true -> extract_playlist_id s = s.
Proof.
  intros H. assert (Hall : forallb is_alnum s = true) by by destruct s.
  unfold extract_playlist_id.
  pose proof (alnum_no_marker s Hall) as Hnone.
  rewrite Hnone, (open_url_none s Hnone). by rewrite H.
Qed.

Lemma extract_playlist_id_bare_token_witness :
  extract_playlist_id (py "37i9playlistQZF1") = py "37i9playlistQZF1".
Proof. apply extract_playlist_id_bare_token. reflexivity. Defined.

(** X6: when the marker is found, the identifier is the whole run of ASCII
    letters and digits that follows the first usable [playlist/] or
    [playlist:] of the reference: it is not empty and the character after
    it, if any, is not a letter or digit. *)
Theorem extract_playlist_id_after_marker (s g : pystr) :
  re_search pat_playlist s = Some g ->
  extract_playlist_id s = g /\
  exists m sep post,
    s = m ++ py "playlist" ++ sep :: g ++ post /\
    is_sep sep = true /\ g <> [] /\ forallb is_alnum g = true /\
    (forall c, head post = Some c -> is_alnum c = false).
Proof.
  intros H. split; [unfold extract_playlist_id; by rewrite H|].
  apply re_search_found in H as (k & t & -> & Hm).
  unfold match_here in Hm.
  destruct (match_chars pat_playlist t) as [rest|] eqn:Hc; [|done].
  apply pat_playlist_shape in Hc as (sep & -> & Hsep).
  destruct (take_while_stops is_alnum rest) as (post & Hpost & Hstop).
  destruct (take_while_split is_alnum rest) as [Hall _].
  destruct (take_while is_alnum rest) as [|c g'] eqn:Hg; [done|].
  injection Hm as <-.
  exists k, sep, post. rewrite <- Hpost. done.
Qed.

Lemma extract_playlist_id_after_marker_witness :
  extract_playlist_id (py "spotify:playlist:37i9dQZF1DX-rest") = py "37i9dQZF1DX".
Proof.
  apply (proj1 (extract_playlist_id_after_marker
                  (py "spotify:playlist:37i9dQZF1DX-rest") (py "37i9dQZF1DX")
                  eq_refl)).
Defined.

(** ** The reference handed to the sync tool *)

Lemma take_while_all p s : forallb p s = true -> take_while p s = s.
Proof.
  induction s as [|c t IH]; simpl; [done|].
  intros H. apply andb_true_iff in H as [-> H]. by rewrite IH.
Qed.

Lemma no_query_all a :
  ~ In 63 a -> forallb (fun c => negb (c =? 63)) a = true.
Proof.
  induction a as [|c a IH]; simpl; [done|]. intros H.
  destruct (c =? 63) eqn:Hc; simpl.
  - apply N.eqb_eq in Hc. tauto.
  - apply IH. tauto.
Qed.

(** X7: the reference passed to the sync tool is the text before the
    first question mark: it contains none, it is the whole reference when
    the reference has none, and it is a prefix of the reference. *)
Theorem before_query_cuts_at_first_mark (url : pystr) :
  ~ In 63 (before_query url) /\
  (exists rest, url = before_query url ++ rest) /\
  (~ In 63 url -> before_query url = url) /\
  (forall a b, url = a ++ 63 :: b -> ~ In 63 a -> before_query url = a).
Proof.
  unfold before_query. split; [|split; [|split]].
  - destruct (take_while_split (fun c => negb (c =? 63)) url) as [Hall _].
    intros Hin. rewrite forallb_forall in Hall. by apply Hall in Hin.
  - by destruct (take_while_split (fun c => negb (c =? 63)) url) as [_ ?].
  - intros H. by apply take_while_all, no_query_all.
  - intros a b -> Ha. apply no_query_all in Ha.
    induction a as [|c a IH]; simpl in *; [done|].
    apply andb_true_iff in Ha as [-> Ha]. by rewrite IH.
Qed.

Lemma before_query_cuts_at_first_mark_witness :
  before_query (py "https://open.spotify.com/playlist/AAA?si=0?x")
  = py "https://open.spotify.com/playlist/AAA".
Proof.
  apply (proj2 (proj2 (proj2 (before_query_cuts_at_first_mark
           (py "https://open.spotify.com/playlist/AAA?si=0?x"))))
           (py "https://open.spotify.com/playlist/AAA") (py "si=0?x")).
  - reflexivity.
  - vm_compute. intuition discriminate.
Defined.

(** ** More on name resolution *)

(** X8: the tiers are consulted in order.  A non-empty name from the API
    decides, whatever the scrape would return; when the API returns nothing
    or an empty name, a non-empty name from the scrape decides. *)
Theorem resolve_playlist_name_precedence
    (api scrape : pystr -> option pystr) (url name : pystr) :
  name <> [] ->
  (api (extract_playlist_id url) = Some name ->
   resolve_playlist_name api scrape url = sanitize_filename name) /\
  (truthy (api (extract_playlist_id url)) = false ->
   scrape (extract_playlist_id url) = Some name ->
   resolve_playlist_name api scrape url = sanitize_filename name).
Proof.
  intros Hne. unfold resolve_playlist_name. split.
  - intros ->. by destruct name.
  - intros -> ->. by destruct name.
Qed.

Lemma resolve_playlist_name_precedence_witness :
  resolve_playlist_name (fun _ => Some (py "From API")) (fun _ => Some (py "From page"))
    demo_bad = py "From API" /\
  resolve_playlist_name (fun _ => Some []) (fun _ => Some (py "From page"))
    demo_bad = py "From page".
Proof.
  split.
  - apply (proj1 (resolve_playlist_name_precedence
                    (fun _ => Some (py "From API")) (fun _ => Some (py "From page"))
                    demo_bad (py "From API") ltac:(discriminate)) eq_refl).
  - apply (proj2 (resolve_playlist_name_precedence
                    (fun _ => Some []) (fun _ => Some (py "From page"))
                    demo_bad (py "From page") ltac:(discriminate)) eq_refl eq_refl).
Defined.

(** X9: whatever the two remote tiers return, the resolved name is a
    sanitized one: not empty, at most 200 characters, without reserved or
    control characters, so it is a single path component. *)
Theorem resolve_playlist_name_is_safe
    (api scrape : pystr -> option pystr) (url : pystr) :
  resolve_playlist_name api scrape url <> [] /\
  (length (resolve_playlist_name api scrape url) <= 200)%nat /\
  (forall c, In c (resolve_playlist_name api scrape url) ->
             ~ In c reserved /\ 31 < c).
Proof.
  assert (exists x, resolve_playlist_name api scrape url = sanitize_filename x)
    as [x ->].
  { unfold resolve_playlist_name.
    destruct (truthy (api _)); [eauto|]. destruct (truthy (scrape _)); eauto. }
  split; [apply sanitize_nonempty|]. split; [apply sanitize_length|].
  intros c Hin. apply allowed_spelled_out.
  by apply (tidy_allowed true (sanitize_filename x)); [apply sanitize_tidy|].
Qed.

(** ** More on the sync step *)

Lemma save_file_name_eq name : save_file_name name = name ++ py ".spotdl".
Proof. unfold save_file_name. by rewrite endswith_app. Qed.

Section MoreProgramProofs.
Variable exec : list arg -> list pystr -> fstore -> outcome * fstore.
Variable get_name_via_spotify_api : pystr -> option pystr.
Variable get_name_via_scrape : pystr -> option pystr.

(** X10: outside a dry run, when the folder can be created, the step
    launches exactly one command: [spotdl sync] on the reference without its
    query string, with the save file named after the playlist, inside the
    folder.  It returns when the tool exits with status 0 and raises
    [CalledProcessError] otherwise; the store is the one the tool left, the
    working directory the one before the step. *)
Theorem sync_step_launches_once
    (url : pystr) (folder : path) (name : pystr) (w : world)
    (c : Z) (fs' : fstore) :
  existsb (is_file (w_fs w)) (inits (resolve (w_cwd w) folder)) = false ->
  exec (spotdl_cmd (before_query url) (name ++ py ".spotdl"))
       (resolve (w_cwd w) folder)
       (FStore (files (w_fs w))
               (list_to_set (inits (resolve (w_cwd w) folder)) ∪ dirs (w_fs w)))
  = (Exited c, fs') ->
  run_spotdl_sync_into_folder exec url folder name false w
  = (if (c =? 0)%Z then Ok tt else Raise CalledProcessError,
     World fs' (w_cwd w)
       (w_cmds w ++ [spotdl_cmd (before_query url) (name ++ py ".spotdl")])
       (w_out w ++ [EvRunning (resolve (w_cwd w) folder)
                      (spotdl_cmd (before_query url) (name ++ py ".spotdl"))])).
Proof.
  intros Hfree Hexec.
  unfold run_spotdl_sync_into_folder, subprocess_run. unfold_monad. simpl.
  rewrite Hfree. simpl. rewrite save_file_name_eq, Hexec. simpl.
  by destruct (c =? 0)%Z.
Qed.

(** X11: when a regular file stands at the folder or at one of its
    ancestors, the step raises [OSError] before anything else: nothing is
    printed, launched or created. *)
Theorem sync_step_blocked_folder
    (url : pystr) (folder : path) (name : pystr) (dry_run : bool) (w : world) :
  existsb (is_file (w_fs w)) (inits (resolve (w_cwd w) folder)) = true ->
  run_spotdl_sync_into_folder exec url folder name dry_run w = (Raise OSError, w).
Proof.
  intros Hblocked.
  unfold run_spotdl_sync_into_folder. unfold_monad. simpl.
  by rewrite Hblocked.
Qed.

Lemma dry_step_store url folder name w :
  w_fs (snd (run_spotdl_sync_into_folder exec url folder name true w))
  = (if existsb (is_file (w_fs w)) (inits (resolve (w_cwd w) folder))
     then w_fs w
     else FStore (files (w_fs w))
            (list_to_set (inits (resolve (w_cwd w) folder)) ∪ dirs (w_fs w)))
  /\ w_cwd (snd (run_spotdl_sync_into_folder exec url folder name true w))
     = w_cwd w
  /\ w_cmds (snd (run_spotdl_sync_into_folder exec url folder name true w))
     = w_cmds w.
Proof.
  unfold run_spotdl_sync_into_folder. unfold_monad. simpl.
  by destruct (existsb _ _).
Qed.

(** X12: a dry run of the sync step leaves every file as it is and
    removes no directory; repeating it changes the store no further. *)
Theorem dry_sync_step_store
    (url : pystr) (folder : path) (name : pystr) (w : world) :
  files (w_fs (snd (run_spotdl_sync_into_folder exec url folder name true w)))
  = files (w_fs w) /\
  dirs (w_fs w)
  ⊆ dirs (w_fs (snd (run_spotdl_sync_into_folder exec url folder name true w))) /\
  w_fs (snd (run_spotdl_sync_into_folder exec url folder name true
               (snd (run_spotdl_sync_into_folder exec url folder name true w))))
  = w_fs (snd (run_spotdl_sync_into_folder exec url folder name true w)).
Proof.
  destruct (dry_step_store url folder name w) as (Hfs & Hcwd & _).
  destruct (dry_step_store url folder name
              (snd (run_spotdl_sync_into_folder exec url folder name true w)))
    as (Hfs2 & _ & _).
  rewrite Hfs2, Hcwd, Hfs.
  destruct (existsb (is_file (w_fs w)) (inits (resolve (w_cwd w) folder)))
    eqn:Hb; simpl.
  - rewrite Hb. by split; [|split].
  - unfold is_file in *. simpl. rewrite Hb.
    split; [done|]. split; [apply union_subseteq_r|].
    f_equal. by rewrite (assoc_L (∪)), (idemp_L (∪)).
Qed.

(** ** More on the post-processing *)

Lemma for_each_raise {A} (body : A -> M unit) x xs w e w' :
  body x w = (Raise e, w') ->
  for_each (x :: xs) body w = (Raise e, w').
Proof. intros H. simpl. unfold mbind, M_bind. by rewrite H. Qed.

(** X13: the step for one file leaves the rest of the store alone, given
    a strip tool that writes nothing but its output path: a file whose name
    does not end in [.mp3] (in any letter case) is skipped, and for the
    others every path besides the original and the temporary output keeps
    its content, whatever the outcome of the tool. *)
Theorem strip_one_frame
    (ffmpeg_cmd : pystr) (root : path) (rel : list pystr) (f : pystr)
    (w : world) :
  (endswith (py ".mp3") (lower f) = false ->
   strip_one exec ffmpeg_cmd root rel f w = (Ok tt, w)) /\
  ((forall q,
      q <> resolve (w_cwd w) (path_add_suffix (path_join root f) tmp_suffix) ->
      files (snd (exec (ffmpeg_cmdline ffmpeg_cmd (path_join root f)
                          (path_add_suffix (path_join root f) tmp_suffix))
                       (w_cwd w) (w_fs w))) !! q
      = files (w_fs w) !! q) ->
   forall q,
     q <> resolve (w_cwd w) (path_join root f) ->
     q <> resolve (w_cwd w) (path_add_suffix (path_join root f) tmp_suffix) ->
     files (w_fs (snd (strip_one exec ffmpeg_cmd root rel f w))) !! q
     = files (w_fs w) !! q).
Proof.
  split.
  { intros Hskip. unfold strip_one. by rewrite Hskip. }
  intros Htool q Hfull Htmp. specialize (Htool q Htmp).
  unfold strip_one. destruct (endswith _ _); [|done].
  unfold subprocess_run. unfold_monad.
  destruct (exec _ _ _) as [[c| |] fs'] eqn:Hexec; simpl in *; [|done|done].
  destruct (c =? 0)%Z; simpl.
  - destruct (files fs' !! resolve (w_cwd w)
                (path_add_suffix (path_join root f) tmp_suffix)) eqn:Hout;
      simpl; rewrite ?Hout; simpl; [|done].
    by rewrite lookup_insert_ne, lookup_delete_ne.
  - unfold is_file. simpl.
    destruct (files fs' !! resolve (w_cwd w)
                (path_add_suffix (path_join root f) tmp_suffix)) eqn:Hout;
      simpl; rewrite ?Hout.
    + rewrite ?bool_decide_true by eauto. simpl. rewrite ?Hout.
      rewrite ?bool_decide_true by eauto. simpl.
      by rewrite lookup_delete_ne.
    + rewrite ?bool_decide_false by (by intros [? ?]). simpl.
      destruct (is_dir fs' _); simpl; rewrite ?Hout;
        rewrite ?bool_decide_false by (by intros [? ?]); done.
Qed.

(** X14: only a non-zero exit status is handled by the step.  When the
    strip tool cannot be launched the step raises [OSError] and the store
    is untouched; when the tool reports success without having written its
    output the step raises [OSError] too; when the user interrupts the tool
    the step raises [KeyboardInterrupt].  In each case the files after it
    in the directory are not visited. *)
Theorem strip_one_unhandled
    (ffmpeg_cmd : pystr) (root : path) (rel : list pystr) (f : pystr)
    (rest : list pystr) (w : world) (fs' : fstore) :
  endswith (py ".mp3") (lower f) = true ->
  (exec (ffmpeg_cmdline ffmpeg_cmd (path_join root f)
           (path_add_suffix (path_join root f) tmp_suffix))
        (w_cwd w) (w_fs w) = (NotStarted, fs') ->
   exists w',
     for_each (f :: rest) (strip_one exec ffmpeg_cmd root rel) w
       = (Raise OSError, w') /\
     w_fs w' = w_fs w) /\
  (exec (ffmpeg_cmdline ffmpeg_cmd (path_join root f)
           (path_add_suffix (path_join root f) tmp_suffix))
        (w_cwd w) (w_fs w) = (Exited 0, fs') ->
   files fs' !! resolve (w_cwd w) (path_add_suffix (path_join root f) tmp_suffix)
     = None ->
   exists w',
     for_each (f :: rest) (strip_one exec ffmpeg_cmd root rel) w
       = (Raise OSError, w') /\
     w_fs w' = fs') /\
  (exec (ffmpeg_cmdline ffmpeg_cmd (path_join root f)
           (path_add_suffix (path_join root f) tmp_suffix))
        (w_cwd w) (w_fs w) = (Interrupted, fs') ->
   exists w',
     for_each (f :: rest) (strip_one exec ffmpeg_cmd root rel) w
       = (Raise KeyboardInterrupt, w') /\
     w_fs w' = fs').
Proof.
  intros Hmp3. split; [|split].
  - intros Hexec. eexists. split; [|shelve].
    apply for_each_raise. unfold strip_one. rewrite Hmp3.
    unfold subprocess_run. unfold_monad. by rewrite Hexec.
    Unshelve. done.
  - intros Hexec Hout. eexists. split; [|shelve].
    apply for_each_raise. unfold strip_one. rewrite Hmp3.
    unfold subprocess_run. unfold_monad. rewrite Hexec. simpl.
    by rewrite Hout.
    Unshelve. done.
  - intros Hexec. eexists. split; [|shelve].
    apply for_each_raise. unfold strip_one. rewrite Hmp3.
    unfold subprocess_run. unfold_monad. by rewrite Hexec.
    Unshelve. done.
Qed.
End MoreProgramProofs.

Lemma strip_one_frame_witness :
  files (w_fs (snd (strip_one failing_exec (py "ffmpeg") demo_folder []
                      (py "other.mp3") demo_synced)))
    !! [py "home"; py "Music"; py "AAA"; demo_song]
  = Some [73; 68; 51; 255; 251].
Proof.
  apply (proj2 (strip_one_frame failing_exec (py "ffmpeg") demo_folder []
                  (py "other.mp3") demo_synced)).
  - intros q Hq. simpl. by rewrite lookup_insert_ne.
  - discriminate.
  - discriminate.
Defined.

Lemma sync_step_launches_once_witness :
  run_spotdl_sync_into_folder demo_exec demo_bad demo_folder (py "BAD") false
    demo_world
  = (Raise CalledProcessError,
     World (FStore ∅ (list_to_set (inits [py "home"; py "Music"; py "AAA"])
                      ∪ {[ [] ; [py "home"] ]}))
       [py "home"]
       [spotdl_cmd (py "https://open.spotify.com/playlist/BAD") (py "BAD.spotdl")]
       [EvRunning [py "home"; py "Music"; py "AAA"]
          (spotdl_cmd (py "https://open.spotify.com/playlist/BAD")
             (py "BAD.spotdl"))]).
Proof.
  apply (sync_step_launches_once demo_exec demo_bad demo_folder (py "BAD")
           demo_world 1%Z); reflexivity.
Defined.

Lemma sync_step_blocked_folder_witness :
  run_spotdl_sync_into_folder demo_exec demo_bad
    (Path true [py "home"; py "Music"; py "AAA"; demo_song; py "sub"])
    (py "BAD") false demo_synced
  = (Raise OSError, demo_synced).
Proof. apply sync_step_blocked_folder. reflexivity. Defined.

Lemma strip_one_unhandled_witness :
  (exists w',
     for_each [demo_song; py "b.mp3"]
       (strip_one no_ffmpeg_exec (py "ffmpeg") demo_folder []) demo_synced
     = (Raise OSError, w') /\ w_fs w' = w_fs demo_synced) /\
  (exists w',
     for_each [demo_song; py "b.mp3"]
       (strip_one silent_exec (py "ffmpeg") demo_folder []) demo_synced
     = (Raise OSError, w') /\ w_fs w' = w_fs demo_synced) /\
  (exists w',
     for_each [demo_song; py "b.mp3"]
       (strip_one interrupted_exec (py "ffmpeg") demo_folder []) demo_synced
     = (Raise KeyboardInterrupt, w') /\ w_fs w' = w_fs demo_synced).
Proof.
  split; [|split].
  - apply (proj1 (strip_one_unhandled no_ffmpeg_exec (py "ffmpeg") demo_folder []
                    demo_song [py "b.mp3"] demo_synced (w_fs demo_synced)
                    eq_refl)).
    reflexivity.
  - apply (proj1 (proj2 (strip_one_unhandled silent_exec (py "ffmpeg") demo_folder
                           [] demo_song [py "b.mp3"] demo_synced
                           (w_fs demo_synced) eq_refl)));
      reflexivity.
  - apply (proj2 (proj2 (strip_one_unhandled interrupted_exec (py "ffmpeg")
                           demo_folder [] demo_song [py "b.mp3"] demo_synced
                           (w_fs demo_synced) eq_refl))).
    reflexivity.
Defined.

(** ** More on the main loop *)

Section MainLoopProofs.
Variable exec : list arg -> list pystr -> fstore -> outcome * fstore.
Variable get_name_via_spotify_api : pystr -> option pystr.
Variable get_name_via_scrape : pystr -> option pystr.

(** X15: when the user interrupts the sync tool, the run stops there: the
    remaining references are not touched, [All done.] is not printed, the
    last line acknowledges the interrupt and the script leaves with
    [sys.exit(1)], the working directory being the one it started in. *)
Theorem main_loop_interrupted
    (base_dir : path) (post_strip : bool) (ffmpeg_cmd : pystr)
    (url : pystr) (rest : list pystr) (w : world) (fs' : fstore) :
  existsb (is_file (w_fs w))
    (inits (resolve (w_cwd w)
              (path_div base_dir
                 (resolve_playlist_name get_name_via_spotify_api
                    get_name_via_scrape url)))) = false ->
  exec (spotdl_cmd (before_query url)
          (resolve_playlist_name get_name_via_spotify_api get_name_via_scrape url
           ++ py ".spotdl"))
       (resolve (w_cwd w)
          (path_div base_dir
             (resolve_playlist_name get_name_via_spotify_api
                get_name_via_scrape url)))
       (FStore (files (w_fs w))
          (list_to_set
             (inits (resolve (w_cwd w)
                       (path_div base_dir
                          (resolve_playlist_name get_name_via_spotify_api
                             get_name_via_scrape url))))
           ∪ dirs (w_fs w)))
  = (Interrupted, fs') ->
  main_loop exec get_name_via_spotify_api get_name_via_scrape
    base_dir false post_strip ffmpeg_cmd (url :: rest) w
  = (Raise (SystemExit 1),
     World fs' (w_cwd w)
       (w_cmds w ++
        [spotdl_cmd (before_query url)
           (resolve_playlist_name get_name_via_spotify_api get_name_via_scrape url
            ++ py ".spotdl")])
       (w_out w ++
        [EvProcessing url;
         EvResolved (resolve_playlist_name get_name_via_spotify_api
                       get_name_via_scrape url);
         EvRunning
           (resolve (w_cwd w)
              (path_div base_dir
                 (resolve_playlist_name get_name_via_spotify_api
                    get_name_via_scrape url)))
           (spotdl_cmd (before_query url)
              (resolve_playlist_name get_name_via_spotify_api
                 get_name_via_scrape url ++ py ".spotdl"));
         EvInterrupted])).
Proof.
  intros Hfree Hexec.
  assert (process_one exec get_name_via_spotify_api get_name_via_scrape
            base_dir false post_strip ffmpeg_cmd url w
          = (Raise KeyboardInterrupt,
             World fs' (w_cwd w)
               (w_cmds w ++
                [spotdl_cmd (before_query url)
                   (resolve_playlist_name get_name_via_spotify_api
                      get_name_via_scrape url ++ py ".spotdl")])
               (((w_out w ++ [EvProcessing url]) ++
                 [EvResolved (resolve_playlist_name get_name_via_spotify_api
                                get_name_via_scrape url)]) ++
                [EvRunning
                   (resolve (w_cwd w)
                      (path_div base_dir
                         (resolve_playlist_name get_name_via_spotify_api
                            get_name_via_scrape url)))
                   (spotdl_cmd (before_query url)
                      (resolve_playlist_name get_name_via_spotify_api
                         get_name_via_scrape url ++ py ".spotdl"))])))
    as Hone.
  { unfold process_one. cbv zeta.
    set (name := resolve_playlist_name get_name_via_spotify_api
                   get_name_via_scrape url) in *.
    set (folder := path_div base_dir name) in *.
    clearbody folder. clearbody name.
    unfold run_spotdl_sync_into_folder, subprocess_run.
    unfold_monad. simpl. rewrite Hfree. simpl.
    by rewrite save_file_name_eq, Hexec. }
  unfold main_loop. unfold mbind, M_bind, try_except.
  rewrite (for_each_raise _ _ _ _ _ _ Hone). unfold print, raise. simpl.
  by rewrite <- !app_assoc.
Qed.

(** X16: an exception raised by the post-processing of a reference is not
    caught by the loop: unless it is the interrupt, the run ends with it,
    the remaining references are not processed and [All done.] is not
    printed. *)
Theorem strip_error_ends_run
    (base_dir : path) (dry_run : bool) (ffmpeg_cmd : pystr)
    (url : pystr) (rest : list pystr) (w w1 w2 : world) (e : exn) :
  run_spotdl_sync_into_folder exec url
    (path_div base_dir
       (resolve_playlist_name get_name_via_spotify_api get_name_via_scrape url))
    (resolve_playlist_name get_name_via_spotify_api get_name_via_scrape url)
    dry_run
    (logged (logged w (EvProcessing url))
       (EvResolved
          (resolve_playlist_name get_name_via_spotify_api get_name_via_scrape url)))
  = (Ok tt, w1) ->
  strip_mp3_metadata_in_folder exec
    (path_div base_dir
       (resolve_playlist_name get_name_via_spotify_api get_name_via_scrape url))
    ffmpeg_cmd dry_run w1 = (Raise e, w2) ->
  e <> KeyboardInterrupt ->
  main_loop exec get_name_via_spotify_api get_name_via_scrape
    base_dir dry_run true ffmpeg_cmd (url :: rest) w
  = (Raise e, w2).
Proof.
  intros Hsync Hstrip He.
  assert (process_one exec get_name_via_spotify_api get_name_via_scrape
            base_dir dry_run true ffmpeg_cmd url w = (Raise e, w2)) as Hone.
  { unfold process_one.
    unfold mbind, M_bind, try_except, print at 1 2, mret, M_ret. simpl.
    unfold logged in Hsync. simpl in Hsync. by rewrite Hsync, Hstrip. }
  unfold main_loop. unfold mbind, M_bind, try_except.
  rewrite (for_each_raise _ _ _ _ _ _ Hone).
  by destruct e.
Qed.

Lemma process_one_dry base_dir post_strip ffmpeg_cmd url w :
  exists w',
    process_one exec get_name_via_spotify_api get_name_via_scrape
      base_dir true post_strip ffmpeg_cmd url w = (Ok tt, w') /\
    w_cmds w' = w_cmds w /\
    files (w_fs w') = files (w_fs w) /\
    w_cwd w' = w_cwd w /\
    processed (w_out w') = processed (w_out w) ++ [url].
Proof.
  unfold process_one, run_spotdl_sync_into_folder, strip_mp3_metadata_in_folder.
  unfold_monad. simpl.
  destruct (existsb _ _); simpl.
  - eexists. split; [done|]. simpl.
    rewrite !processed_snoc, !app_nil_r. done.
  - destruct post_strip; simpl; (eexists; split; [done|]); simpl;
      rewrite !processed_snoc, !app_nil_r; done.
Qed.

(** X17: a dry run of the whole list launches no command and changes no
    file; it announces every reference in order, leaves the working
    directory where it was and ends with exit code 0, whatever the tools
    would have done. *)
Theorem dry_run_launches_nothing
    (base_dir : path) (post_strip : bool) (ffmpeg_cmd : pystr)
    (lines : list pystr) (w : world) :
  fst (main_loop exec get_name_via_spotify_api get_name_via_scrape
         base_dir true post_strip ffmpeg_cmd lines w) = Ok tt /\
  w_cmds (snd (main_loop exec get_name_via_spotify_api get_name_via_scrape
                 base_dir true post_strip ffmpeg_cmd lines w)) = w_cmds w /\
  files (w_fs (snd (main_loop exec get_name_via_spotify_api get_name_via_scrape
                      base_dir true post_strip ffmpeg_cmd lines w)))
  = files (w_fs w) /\
  w_cwd (snd (main_loop exec get_name_via_spotify_api get_name_via_scrape
                base_dir true post_strip ffmpeg_cmd lines w)) = w_cwd w /\
  processed (w_out (snd (main_loop exec get_name_via_spotify_api
                           get_name_via_scrape base_dir true post_strip
                           ffmpeg_cmd lines w)))
  = processed (w_out w) ++ lines.
Proof.
  assert (exists w',
            for_each lines
              (process_one exec get_name_via_spotify_api get_name_via_scrape
                 base_dir true post_strip ffmpeg_cmd) w = (Ok tt, w') /\
            w_cmds w' = w_cmds w /\ files (w_fs w') = files (w_fs w) /\
            w_cwd w' = w_cwd w /\
            processed (w_out w') = processed (w_out w) ++ lines)
    as (w' & Hloop & Hcmds & Hfiles & Hcwd & Hrefs).
  { revert w. induction lines as [|url lines IH]; intros w.
    - exists w. by rewrite app_nil_r.
    - destruct (process_one_dry base_dir post_strip ffmpeg_cmd url w)
        as (w1 & Hone & H1 & H2 & H3 & H4).
      destruct (IH w1) as (w2 & Hrest & H5 & H6 & H7 & H8).
      exists w2. simpl. unfold mbind, M_bind. rewrite Hone.
      split; [done|]. rewrite H5, H6, H7, H8, H1, H2, H3, H4, <- app_assoc.
      done. }
  unfold main_loop. unfold mbind, M_bind, try_except, print.
  rewrite Hloop. simpl. rewrite processed_snoc, app_nil_r. done.
Qed.

Lemma for_each_inv {A} (R : world -> world -> Prop) (body : A -> M unit) :
  (forall w, R w w) ->
  (forall w1 w2 w3, R w1 w2 -> R w2 w3 -> R w1 w3) ->
  (forall x w, R w (snd (body x w))) ->
  forall xs w, R w (snd (for_each xs body w)).
Proof.
  intros Hrefl Htrans Hbody xs.
  induction xs as [|x xs IH]; intros w; simpl; [apply Hrefl|].
  unfold mbind, M_bind. pose proof (Hbody x w) as Hx.
  destruct (body x w) as [[[]|e] w1]; simpl in *; [|done].
  by apply (Htrans _ w1).
Qed.

Lemma sync_step_keeps_cwd url folder name dry_run w :
  w_cwd (snd (run_spotdl_sync_into_folder exec url folder name dry_run w))
  = w_cwd w.
Proof.
  unfold run_spotdl_sync_into_folder, subprocess_run. unfold_monad. simpl.
  destruct (existsb _ _); [done|]. simpl.
  destruct dry_run; [done|]. simpl.
  destruct (exec _ _ _) as [[c| |] fs']; simpl; [|done|done].
  by destruct (c =? 0)%Z.
Qed.

Lemma strip_one_keeps_cwd ffmpeg_cmd root rel f w :
  w_cwd (snd (strip_one exec ffmpeg_cmd root rel f w)) = w_cwd w.
Proof.
  unfold strip_one. destruct (endswith _ _); [|done].
  unfold subprocess_run. unfold_monad.
  destruct (exec _ _ _) as [[c| |] fs']; simpl; [|done|done].
  destruct (c =? 0)%Z; simpl.
  - by destruct (files fs' !! _).
  - unfold is_file. simpl. case_bool_decide; simpl.
    + by case_bool_decide.
    + destruct (is_dir fs' _); simpl; [|done]. by case_bool_decide.
Qed.

Lemma strip_folder_keeps_cwd folder ffmpeg_cmd dry_run w :
  w_cwd (snd (strip_mp3_metadata_in_folder exec folder ffmpeg_cmd dry_run w))
  = w_cwd w.
Proof.
  unfold strip_mp3_metadata_in_folder. destruct dry_run; [done|].
  unfold mbind at 1, M_bind at 1, get_world at 1.
  apply (for_each_inv (fun w w' => w_cwd w' = w_cwd w)); [done|congruence|].
  intros rel w1. unfold strip_dir.
  unfold mbind at 1, M_bind at 1, get_world at 1.
  apply (for_each_inv (fun w w' => w_cwd w' = w_cwd w)); [done|congruence|].
  intros f w2. apply strip_one_keeps_cwd.
Qed.

Lemma process_one_keeps_cwd base_dir dry_run post_strip ffmpeg_cmd url w :
  w_cwd (snd (process_one exec get_name_via_spotify_api get_name_via_scrape
                base_dir dry_run post_strip ffmpeg_cmd url w)) = w_cwd w.
Proof.
  unfold process_one.
  unfold mbind, M_bind, try_except, print at 1 2, mret, M_ret. simpl.
  match goal with
  | |- context [run_spotdl_sync_into_folder exec url ?fo ?na dry_run ?w0] =>
      pose proof (sync_step_keeps_cwd url fo na dry_run w0) as Hsync;
      destruct (run_spotdl_sync_into_folder exec url fo na dry_run w0)
        as [[[]|e] w1]
  end; simpl in Hsync.
  - destruct post_strip.
    + pose proof (strip_folder_keeps_cwd
                    (path_div base_dir
                       (resolve_playlist_name get_name_via_spotify_api
                          get_name_via_scrape url)) ffmpeg_cmd dry_run w1) as Hs.
      destruct (strip_mp3_metadata_in_folder _ _ _ _ _) as [[[]|e] w2];
        simpl in *; congruence.
    + done.
  - by destruct e.
Qed.

(** X18: however the run ends (completed, interrupted, or stopped by an
    exception), the script is back in the working directory it started
    in. *)
Theorem main_loop_keeps_cwd
    (base_dir : path) (dry_run post_strip : bool) (ffmpeg_cmd : pystr)
    (lines : list pystr) (w : world) :
  w_cwd (snd (main_loop exec get_name_via_spotify_api get_name_via_scrape
                base_dir dry_run post_strip ffmpeg_cmd lines w)) = w_cwd w.
Proof.
  unfold main_loop. unfold mbind, M_bind, try_except.
  pose proof (for_each_inv (fun w w' => w_cwd w' = w_cwd w)
                (process_one exec get_name_via_spotify_api get_name_via_scrape
                   base_dir dry_run post_strip ffmpeg_cmd)
                ltac:(done) ltac:(congruence)
                (process_one_keeps_cwd base_dir dry_run post_strip ffmpeg_cmd)
                lines w) as Hloop.
  destruct (for_each _ _ _) as [[[]|e] w1]; simpl in *; [done|].
  by destruct e.
Qed.

Lemma process_one_cmds base_dir dry_run ffmpeg_cmd url w :
  exists l,
    w_cmds (snd (process_one exec get_name_via_spotify_api get_name_via_scrape
                   base_dir dry_run false ffmpeg_cmd url w)) = w_cmds w ++ l /\
    l `sublist_of`
      [spotdl_cmd (before_query url)
         (save_file_name
            (resolve_playlist_name get_name_via_spotify_api
               get_name_via_scrape url))].
Proof.
  unfold process_one, run_spotdl_sync_into_folder, subprocess_run.
  unfold_monad. simpl.
  destruct (existsb _ _); simpl.
  { exists []. rewrite app_nil_r. split; [done | apply sublist_nil_l]. }
  destruct dry_run; simpl.
  { exists []. rewrite app_nil_r. split; [done | apply sublist_nil_l]. }
  destruct (exec _ _ _) as [[c| |] fs']; simpl;
    [destruct (c =? 0)%Z; simpl| |]; by eexists.
Qed.

(** X19: with post-processing off, the only commands the run launches are
    [spotdl sync] commands, at most one per reference and in the order of
    the list, each on its reference without the query string. *)
Theorem no_strip_launches_only_spotdl
    (base_dir : path) (dry_run : bool) (ffmpeg_cmd : pystr)
    (lines : list pystr) (w : world) :
  exists launched,
    w_cmds (snd (main_loop exec get_name_via_spotify_api get_name_via_scrape
                   base_dir dry_run false ffmpeg_cmd lines w))
    = w_cmds w ++ launched /\
    launched `sublist_of`
      List.map
        (fun url =>
           spotdl_cmd (before_query url)
             (save_file_name
                (resolve_playlist_name get_name_via_spotify_api
                   get_name_via_scrape url)))
        lines.
Proof.
  assert (exists launched,
            w_cmds (snd (for_each lines
                           (process_one exec get_name_via_spotify_api
                              get_name_via_scrape base_dir dry_run false
                              ffmpeg_cmd) w))
            = w_cmds w ++ launched /\
            launched `sublist_of`
              List.map
                (fun url =>
                   spotdl_cmd (before_query url)
                     (save_file_name
                        (resolve_playlist_name get_name_via_spotify_api
                           get_name_via_scrape url)))
                lines) as (launched & Hcmds & Hsub).
  { revert w. induction lines as [|url lines IH]; intros w.
    - exists []. by rewrite app_nil_r.
    - destruct (process_one_cmds base_dir dry_run ffmpeg_cmd url w)
        as (l1 & H1 & Hs1).
      simpl for_each. unfold mbind, M_bind.
      destruct (process_one _ _ _ _ _ _ _ url w) as [[[]|e] w1]; simpl in H1.
      + destruct (IH w1) as (l2 & H2 & Hs2).
        exists (l1 ++ l2). rewrite H2, H1, <- app_assoc. split; [done|].
        by apply (sublist_app l1 [_] l2).
      + exists l1. split; [done|].
        rewrite <- (app_nil_r l1). by apply (sublist_app l1 [_] []),
          sublist_nil_l. }
  exists launched. split; [|done].
  unfold main_loop. unfold mbind, M_bind, try_except, print, raise.
  destruct (for_each _ _ _) as [[[]|e] w1]; simpl in *; [done|].
  by destruct e.
Qed.
End MainLoopProofs.

Lemma main_loop_interrupted_witness :
  exit_code (fst (main_loop interrupted_exec no_name no_name demo_base false true
                    (py "ffmpeg") demo_lines demo_world)) = 1%Z /\
  processed (w_out (snd (main_loop interrupted_exec no_name no_name demo_base
                           false true (py "ffmpeg") demo_lines demo_world)))
  = [py "https://open.spotify.com/playlist/AAA?si=0"].
Proof.
  unfold demo_lines.
  rewrite (main_loop_interrupted interrupted_exec no_name no_name demo_base true
             (py "ffmpeg") (py "https://open.spotify.com/playlist/AAA?si=0")
             [demo_bad; py "spotify:playlist:CCC"] demo_world
             (FStore ∅ (list_to_set (inits [py "home"; py "Music"; py "AAA"])
                        ∪ {[ [] ; [py "home"] ]}))
             eq_refl eq_refl).
  split; reflexivity.
Defined.

Lemma strip_error_ends_run_witness :
  fst (main_loop no_ffmpeg_exec no_name no_name demo_base false true
         (py "ffmpeg") demo_lines demo_world) = Raise OSError /\
  exit_code (fst (main_loop no_ffmpeg_exec no_name no_name demo_base false true
                    (py "ffmpeg") demo_lines demo_world)) = 1%Z /\
  processed (w_out (snd (main_loop no_ffmpeg_exec no_name no_name demo_base
                           false true (py "ffmpeg") demo_lines demo_world)))
  = [py "https://open.spotify.com/playlist/AAA?si=0"].
Proof.
  unfold demo_lines.
  rewrite (strip_error_ends_run no_ffmpeg_exec no_name no_name demo_base false
             (py "ffmpeg") (py "https://open.spotify.com/playlist/AAA?si=0")
             [demo_bad; py "spotify:playlist:CCC"] demo_world _ _ OSError
             eq_refl eq_refl ltac:(discriminate)).
  split; [reflexivity|]. split; [reflexivity | by vm_compute].
Defined.

(** ** The list of references *)

Lemma lstrip_head s c t : lstrip s = c :: t -> isspace c = false.
Proof.
  induction s as [|d s IH]; simpl; [done|].
  destruct (isspace d) eqn:Hd; [done|]. by intros [= <- _].
Qed.

Lemma rstrip_keeps_head c t :
  isspace c = false -> exists r, rstrip (c :: t) = c :: r.
Proof. intros Hc. simpl. rewrite Hc. destruct (rstrip t); eauto. Qed.

Lemma strip_idem s : strip (strip s) = strip s.
Proof.
  unfold strip. destruct (lstrip s) as [|c t] eqn:Hz; [done|].
  apply lstrip_head in Hz.
  destruct (rstrip_keeps_head c t Hz) as [r Hr].
  rewrite Hr. simpl lstrip. rewrite Hz, <- Hr. apply rstrip_idem.
Qed.

Lemma startswith_hash s : startswith (py "#") s = false <-> head s <> Some 35.
Proof.
  destruct s as [|c t]; [done|].
  change (startswith (py "#") (c :: t)) with ((35 =? c) && true).
  rewrite andb_true_r, N.eqb_neq. simpl. split; congruence.
Qed.

Lemma playlist_lines_in raw ln :
  In ln (playlist_lines raw) ->
  ln <> [] /\ strip ln = ln /\ startswith (py "#") ln = false.
Proof.
  unfold playlist_lines. rewrite in_map_iff.
  intros (x & <- & Hx). apply filter_In in Hx as [_ Hx].
  apply andb_true_iff in Hx as [H1 H2].
  apply negb_true_iff in H1, H2. apply bool_decide_eq_false in H1.
  by rewrite strip_idem.
Qed.

Lemma playlist_lines_fixed l :
  (forall ln, In ln l ->
     ln <> [] /\ strip ln = ln /\ startswith (py "#") ln = false) ->
  playlist_lines l = l.
Proof.
  unfold playlist_lines. induction l as [|x l IH]; intros H; [done|].
  destruct (H x (or_introl eq_refl)) as (Hne & Hs & Hh).
  cbn [List.filter]. rewrite Hs, Hh, bool_decide_false by done.
  cbn [negb andb List.map].
  rewrite Hs. f_equal. apply IH. intros ln Hin. apply H. by right.
Qed.

Lemma playlist_lines_map_filter raw :
  playlist_lines raw
  = List.filter (fun ln => negb (bool_decide (ln = []))
                           && negb (startswith (py "#") ln))
                (List.map strip raw).
Proof.
  unfold playlist_lines. induction raw as [|x raw IH]; [done|].
  cbn [List.filter List.map].
  destruct (_ && _); cbn [List.map]; by rewrite IH.
Qed.

(** X20: the references read from the list file are exactly the stripped
    lines of the file, in its order, that are not empty and do not start
    with [#]: every such line is kept and nothing else is.  Each reference
    has no surrounding whitespace; a list of clean lines is returned as it
    is, so reading the result again changes nothing. *)
Theorem playlist_lines_clean (raw : list pystr) :
  playlist_lines raw
  = List.filter (fun ln => negb (bool_decide (ln = []))
                           && negb (startswith (py "#") ln))
                (List.map strip raw) /\
  (forall ln, In ln (playlist_lines raw) <->
     exists r, In r raw /\ ln = strip r /\ ln <> [] /\ head ln <> Some 35) /\
  (forall ln, In ln (playlist_lines raw) -> strip ln = ln) /\
  ((forall ln, In ln raw -> ln <> [] /\ strip ln = ln /\ head ln <> Some 35) ->
   playlist_lines raw = raw) /\
  playlist_lines (playlist_lines raw) = playlist_lines raw.
Proof.
  split; [apply playlist_lines_map_filter|]. split; [|split; [|split]].
  - intros ln. rewrite playlist_lines_map_filter, filter_In, in_map_iff.
    rewrite andb_true_iff, !negb_true_iff, bool_decide_eq_false, startswith_hash.
    split.
    + intros [(r & <- & Hr) [H1 H2]]. by exists r.
    + intros (r & Hr & -> & H1 & H2). split; [by exists r | done].
  - intros ln Hin. by apply playlist_lines_in in Hin as (_ & H & _).
  - intros H. apply playlist_lines_fixed. intros ln Hin.
    destruct (H ln Hin) as (H1 & H2 & H3). by apply startswith_hash in H3.
  - apply playlist_lines_fixed, playlist_lines_in.
Qed.

Lemma playlist_lines_clean_witness :
  playlist_lines [py "spotify:playlist:AAA"; py "BBB"]
  = [py "spotify:playlist:AAA"; py "BBB"] /\
  playlist_lines
    [py "  spotify:playlist:AAA "; py ""; py " # not this"; py "BBB"; py "   "]
  = [py "spotify:playlist:AAA"; py "BBB"].
Proof.
  split; [|reflexivity].
  apply (proj1 (proj2 (proj2 (proj2 (playlist_lines_clean
           [py "spotify:playlist:AAA"; py "BBB"]))))).
  intros ln [<-|[<-|[]]]; by vm_compute.
Defined.

(** ** The [ffmpeg] command *)

Lemma py_or_l x y : py_bool x = true -> py_or x y = x.
Proof. unfold py_or. by intros ->. Qed.

Lemma py_or_r x y : py_bool x = false -> py_or x y = y.
Proof. unfold py_or. by intros ->. Qed.

Lemma optional_string_cases (o : option pystr) :
  (exists s, nonempty o = Some s /\ or_none (JString <$> o) = JString s /\
             py_bool (JString s) = true) \/
  (nonempty o = None /\ py_bool (or_none (JString <$> o)) = false).
Proof.
  destruct o as [[|c t]|]; [by right| |by right].
  left. exists (c :: t). split; [done|]. split; [done|].
  unfold py_bool. by rewrite bool_decide_false.
Qed.

(** X21: the [ffmpeg] command chosen by [main] is never a falsy value.
    A truthy [ffmpeg] key of the configuration wins, whatever the option
    and the environment say; otherwise a non-empty command-line option
    wins over the environment; otherwise a non-empty [FFMPEG] variable;
    otherwise the name [ffmpeg]. *)
Theorem choose_ffmpeg_precedence
    (cfg : gmap pystr json) (ffmpeg_opt ffmpeg_env : option pystr) :
  py_bool (choose_ffmpeg cfg ffmpeg_opt ffmpeg_env) = true /\
  (forall v, cfg !! py "ffmpeg" = Some v -> py_bool v = true ->
             choose_ffmpeg cfg ffmpeg_opt ffmpeg_env = v) /\
  (py_bool (or_none (cfg !! py "ffmpeg")) = false ->
   (forall s, nonempty ffmpeg_opt = Some s ->
              choose_ffmpeg cfg ffmpeg_opt ffmpeg_env = JString s) /\
   (nonempty ffmpeg_opt = None ->
    (forall s, nonempty ffmpeg_env = Some s ->
               choose_ffmpeg cfg ffmpeg_opt ffmpeg_env = JString s) /\
    (nonempty ffmpeg_env = None ->
     choose_ffmpeg cfg ffmpeg_opt ffmpeg_env = JString (py "ffmpeg")))).
Proof.
  unfold choose_ffmpeg.
  destruct (optional_string_cases ffmpeg_opt) as [(so & Ho & Eo & Bo)|[Ho Bo]];
    destruct (optional_string_cases ffmpeg_env) as [(se & He & Ee & Be)|[He Be]];
    destruct (py_bool (or_none (cfg !! py "ffmpeg"))) eqn:Ha;
    rewrite ?Eo, ?Ee in *;
    repeat match goal with
           | |- context [py_or ?x ?y] =>
               first [rewrite (py_or_l x y) by assumption
                     |rewrite (py_or_r x y) by assumption]
           end.
  all: split; [first [assumption | reflexivity]|].
  all: split; [intros v Hv Hb; rewrite Hv in *; simpl in *; congruence|].
  all: intros Hfalse; try discriminate Hfalse.
  all: split; [intros s Hs; congruence|]; intros Hn.
  all: split; [intros s Hs; congruence|]; intros Hn2; congruence.
Qed.

Lemma choose_ffmpeg_precedence_witness :
  choose_ffmpeg {[ py "ffmpeg" := JString (py "/opt/ffmpeg") ]}
    (Some (py "ffmpeg6")) (Some (py "ffmpeg5")) = JString (py "/opt/ffmpeg") /\
  choose_ffmpeg {[ py "ffmpeg" := JString [] ]}
    (Some (py "ffmpeg6")) (Some (py "ffmpeg5")) = JString (py "ffmpeg6") /\
  choose_ffmpeg ∅ (Some []) None = JString (py "ffmpeg").
Proof.
  split; [|split].
  - pose proof (choose_ffmpeg_precedence
                  ({[ py "ffmpeg" := JString (py "/opt/ffmpeg") ]} : gmap pystr json)
                  (Some (py "ffmpeg6")) (Some (py "ffmpeg5"))) as (_ & H & _).
    apply H; reflexivity.
  - pose proof (choose_ffmpeg_precedence
                  ({[ py "ffmpeg" := JString [] ]} : gmap pystr json)
                  (Some (py "ffmpeg6")) (Some (py "ffmpeg5"))) as (_ & _ & H).
    apply (proj1 (H eq_refl)). reflexivity.
  - pose proof (choose_ffmpeg_precedence (∅ : gmap pystr json) (Some []) None)
      as (_ & _ & H).
    apply (proj2 (proj2 (H eq_refl) eq_refl)). reflexivity.
Defined.

(** ** The configuration lookup *)

Lemma first_existing_some ok places p :
  first_existing ok places = Returns (Some p) ->
  exists before after,
    places = before ++ Returns p :: after /\
    ok p = Returns true /\
    Forall (tried_missing ok) before.
Proof.
  induction places as [|[q|e] places IH]; simpl; [done| |done].
  destruct (ok q) as [[|]|e] eqn:Hq; simpl; [| |done].
  - intros [= ->]. by exists [], places.
  - intros H. destruct (IH H) as (before & after & -> & Hp & Hb).
    exists (Returns q :: before), after. split; [done|]. split; [done|].
    constructor; [by exists q|done].
Qed.

Lemma first_existing_none ok places :
  first_existing ok places = Returns None ->
  Forall (tried_missing ok) places.
Proof.
  induction places as [|[q|e] places IH]; simpl; [by constructor| |done].
  destruct (ok q) as [[|]|e] eqn:Hq; simpl; [done| |done].
  intros H. constructor; [by exists q | by apply IH].
Qed.

Lemma first_existing_raises ok places e :
  first_existing ok places = Raises e ->
  exists before place after,
    places = before ++ place :: after /\
    Forall (tried_missing ok) before /\
    (place = Raises e \/ exists q, place = Returns q /\ ok q = Raises e).
Proof.
  induction places as [|[q|e'] places IH]; simpl; [done| |].
  - destruct (ok q) as [[|]|e'] eqn:Hq; simpl; [done| |].
    + intros H. destruct (IH H) as (before & place & after & -> & Hb & Hplace).
      exists (Returns q :: before), place, after. split; [done|].
      split; [|done]. constructor; [by exists q|done].
    + intros [= ->]. exists [], (Returns q), places.
      split; [done|]. split; [constructor|]. right. by exists q.
  - intros [= ->]. exists [], (Raises e), places.
    split; [done|]. split; [constructor|]. by left.
Qed.

Section ConfigProofs.
Variable environ : gmap pystr pystr.
Variable home : option path.
Variable user_home : pystr -> option path.
Variable cwd : list pystr.
Variable fs : fstore.
Variable stat_fails : path -> bool.
Variable unreadable : path -> bool.
Variable json_load : list N -> option json.

Lemma find_is_first explicit :
  find_spotdl_config environ home user_home cwd fs stat_fails explicit
  = first_existing (path_exists fs cwd stat_fails)
      (config_candidates environ home user_home explicit).
Proof.
  unfold find_spotdl_config, config_candidates, existing.
  destruct (nonempty explicit) as [s1|]; simpl;
    [destruct (expanduser home user_home (path_of_str s1)) as [p1|e1];
       simpl; [|done];
     destruct (path_exists fs cwd stat_fails p1) as [[|]|]; simpl; try done|];
  (destruct (nonempty (environ !! py "SPOTDL_CONFIG")) as [s2|]; simpl;
    [destruct (expanduser home user_home (path_of_str s2)) as [p2|e2];
       simpl; [|done];
     destruct (path_exists fs cwd stat_fails p2) as [[|]|]; simpl; try done|]);
  (destruct (nonempty (environ !! py "XDG_CONFIG_HOME")) as [s3|]; simpl;
    [destruct (path_exists fs cwd stat_fails (config_json (path_of_str s3)))
       as [[|]|]; simpl; try done
    |]);
  (destruct home as [h|]; simpl; [|done]);
  try (destruct (path_exists fs cwd stat_fails
                   (config_json (path_div h (py ".config"))))
         as [[|]|]; simpl; try done);
  (destruct (path_exists fs cwd stat_fails
               (path_div (path_div h (py ".spotdl")) (py "config.json")))
     as [[|]|]; simpl; try done);
  (destruct (nonempty (environ !! py "APPDATA")) as [s5|]; simpl; [|done]);
  by destruct (path_exists fs cwd stat_fails (config_json (path_of_str s5)))
       as [[|]|].
Qed.

(** X22: the configuration lookup tries the places of its docstring in
    order and stops at the first that exists, or at the first exception:
    [RuntimeError] when [~] or [~name] has no home directory, or the error
    of the existence test.  So the path it returns is the first of the
    places that exists, every place before it having been tried and found
    missing; it returns nothing only when every place was tried and found
    missing; what it raises is raised at a place all of whose predecessors
    were tried and found missing; and an explicit path that names an
    unknown user makes it raise. *)
Theorem find_spotdl_config_first_match (explicit : option pystr) :
  find_spotdl_config environ home user_home cwd fs stat_fails explicit
  = first_existing (path_exists fs cwd stat_fails)
      (config_candidates environ home user_home explicit) /\
  (forall p,
     find_spotdl_config environ home user_home cwd fs stat_fails explicit
     = Returns (Some p) ->
     exists before after,
       config_candidates environ home user_home explicit
       = before ++ Returns p :: after /\
       path_exists fs cwd stat_fails p = Returns true /\
       Forall (tried_missing (path_exists fs cwd stat_fails)) before) /\
  (find_spotdl_config environ home user_home cwd fs stat_fails explicit
   = Returns None ->
   Forall (tried_missing (path_exists fs cwd stat_fails))
     (config_candidates environ home user_home explicit)) /\
  (forall e,
     find_spotdl_config environ home user_home cwd fs stat_fails explicit
     = Raises e ->
     exists before place after,
       config_candidates environ home user_home explicit
       = before ++ place :: after /\
       Forall (tried_missing (path_exists fs cwd stat_fails)) before /\
       (place = Raises e \/
        exists q, place = Returns q /\
                  path_exists fs cwd stat_fails q = Raises e)) /\
  (forall s e,
     nonempty explicit = Some s ->
     expanduser home user_home (path_of_str s) = Raises e ->
     find_spotdl_config environ home user_home cwd fs stat_fails explicit
     = Raises e).
Proof.
  rewrite find_is_first. split; [done|]. split; [|split; [|split]].
  - intros p. apply first_existing_some.
  - apply first_existing_none.
  - intros e. apply first_existing_raises.
  - intros s e Hs He. unfold config_candidates. rewrite Hs. simpl.
    by rewrite He.
Qed.

(** X23: when [XDG_CONFIG_HOME] is set, the [.config] directory of the
    home is not looked at: with nothing given explicitly or by the other
    variables, and no file in the XDG directory nor in [~/.spotdl], no
    configuration is found, whatever [~/.config/spotdl/config.json] is. *)
Theorem find_spotdl_config_xdg_hides_home
    (explicit : option pystr) (xdg : pystr) (h : path) :
  home = Some h ->
  nonempty explicit = None ->
  nonempty (environ !! py "SPOTDL_CONFIG") = None ->
  nonempty (environ !! py "APPDATA") = None ->
  nonempty (environ !! py "XDG_CONFIG_HOME") = Some xdg ->
  path_exists fs cwd stat_fails (config_json (path_of_str xdg))
  = Returns false ->
  path_exists fs cwd stat_fails
    (path_div (path_div h (py ".spotdl")) (py "config.json")) = Returns false ->
  find_spotdl_config environ home user_home cwd fs stat_fails explicit
  = Returns None.
Proof.
  intros -> H1 H2 H3 H4 H5 H6.
  unfold find_spotdl_config, existing. rewrite H1, H2, H3, H4. simpl.
  rewrite H5. simpl. by rewrite H6.
Qed.

(** X24: loading the configuration raises exactly when the lookup raises,
    and then the same exception.  Without a configuration file the result
    is the empty dictionary and nothing is printed; a file that cannot be
    read or parsed gives the empty dictionary and a warning; a file that
    is read and parsed gives its value; so anything else than the empty
    dictionary is what the parser made of the file the lookup found. *)
Theorem load_spotdl_config_best_effort (explicit : option pystr) :
  (forall e,
     load_spotdl_config environ home user_home cwd fs stat_fails unreadable
       json_load explicit = Raises e <->
     find_spotdl_config environ home user_home cwd fs stat_fails explicit
     = Raises e) /\
  (find_spotdl_config environ home user_home cwd fs stat_fails explicit
   = Returns None ->
   load_spotdl_config environ home user_home cwd fs stat_fails unreadable
     json_load explicit = Returns (JObject [], None)) /\
  (forall p,
     find_spotdl_config environ home user_home cwd fs stat_fails explicit
     = Returns (Some p) ->
     read_json cwd fs unreadable json_load p = None ->
     load_spotdl_config environ home user_home cwd fs stat_fails unreadable
       json_load explicit = Returns (JObject [], Some (MsgWarning p))) /\
  (forall p cfg,
     find_spotdl_config environ home user_home cwd fs stat_fails explicit
     = Returns (Some p) ->
     read_json cwd fs unreadable json_load p = Some cfg ->
     load_spotdl_config environ home user_home cwd fs stat_fails unreadable
       json_load explicit = Returns (cfg, Some (MsgLoaded p))) /\
  (forall cfg msg,
     load_spotdl_config environ home user_home cwd fs stat_fails unreadable
       json_load explicit = Returns (cfg, msg) ->
     cfg <> JObject [] ->
     exists p q data,
       find_spotdl_config environ home user_home cwd fs stat_fails explicit
       = Returns (Some p) /\
       unreadable p = false /\
       locate fs cwd p = Some q /\
       files fs !! q = Some data /\
       json_load data = Some cfg /\
       msg = Some (MsgLoaded p)).
Proof.
  unfold load_spotdl_config.
  destruct (find_spotdl_config _ _ _ _ _ _ _) as [[p|]|e0];
    cbn [mbind lookup_bind mret lookup_ret].
  - destruct (read_json cwd fs unreadable json_load p) as [cfg0|] eqn:Hload.
    + split; [by split|]. split; [done|]. split.
      { intros ? [= <-] Hnone. by rewrite Hload in Hnone. }
      split.
      { intros ? cfg [= <-] Hsome. rewrite Hload in Hsome. by simplify_eq. }
      intros cfg msg [= <- <-] _. unfold read_json in Hload.
      destruct (unreadable p) eqn:Hread; [done|].
      destruct (locate fs cwd p) as [q|] eqn:Hq; [|done]. simpl in Hload.
      destruct (files fs !! q) as [data|] eqn:Hdata; [|done]. simpl in Hload.
      by exists p, q, data.
    + split; [by split|]. split; [done|]. split.
      { by intros ? [= <-] _. }
      split.
      { intros ? cfg [= <-] Hsome. by rewrite Hload in Hsome. }
      by intros cfg msg [= <- <-].
  - split; [by split|]. split; [done|]. split; [done|]. split; [done|].
    by intros cfg msg [= <- <-].
  - split; [intros e; split; congruence|]. by repeat split.
Qed.
End ConfigProofs.

Lemma find_spotdl_config_first_match_witness :
  find_spotdl_config ∅ (Some demo_home) demo_users [py "home"; py "me"]
    demo_config_store no_refusal (Some (py "~root/cfg.json"))
  = Returns (Some (Path true [py "root"; py "cfg.json"])) /\
  find_spotdl_config ∅ (Some demo_home) demo_users [py "home"; py "me"]
    demo_config_store no_refusal (Some (py "x/../my.json"))
  = Returns (Some (Path false [py "x"; py ".."; py "my.json"])) /\
  path_exists demo_config_store [py "home"; py "me"] no_refusal
    (Path false [py "x"; py ".."; py "my.json"]) = Returns true /\
  find_spotdl_config ∅ (Some demo_home) demo_users [py "home"; py "me"]
    demo_config_store no_refusal (Some (py "~nosuchuser/cfg.json"))
  = Raises RuntimeError /\
  find_spotdl_config ∅ (Some demo_home) demo_users [py "home"; py "me"]
    demo_config_store no_refusal None
  = Returns None.
Proof.
  split; [reflexivity|].
  assert (Hfound :
    find_spotdl_config ∅ (Some demo_home) demo_users [py "home"; py "me"]
      demo_config_store no_refusal (Some (py "x/../my.json"))
    = Returns (Some (Path false [py "x"; py ".."; py "my.json"])))
    by reflexivity.
  split; [exact Hfound|]. split; [|split; [|reflexivity]].
  - destruct (proj1 (proj2 (find_spotdl_config_first_match ∅ (Some demo_home)
                              demo_users [py "home"; py "me"] demo_config_store
                              no_refusal (Some (py "x/../my.json")))) _ Hfound)
      as (_ & _ & _ & Hok & _).
    exact Hok.
  - apply (proj2 (proj2 (proj2 (proj2
             (find_spotdl_config_first_match ∅ (Some demo_home) demo_users
                [py "home"; py "me"] demo_config_store no_refusal
                (Some (py "~nosuchuser/cfg.json"))))))
             (py "~nosuchuser/cfg.json") RuntimeError); reflexivity.
Defined.

Lemma find_spotdl_config_xdg_hides_home_witness :
  find_spotdl_config {[ py "XDG_CONFIG_HOME" := py "/etc/xdg" ]} (Some demo_home)
    demo_users [py "home"; py "me"] demo_home_config no_refusal None
  = Returns None /\
  find_spotdl_config ∅ (Some demo_home) demo_users [py "home"; py "me"]
    demo_home_config no_refusal None
  = Returns (Some (Path true [py "home"; py "me"; py ".config"; py "spotdl";
                              py "config.json"])).
Proof.
  split; [|reflexivity].
  apply (find_spotdl_config_xdg_hides_home _ _ _ _ _ _ None (py "/etc/xdg")
           demo_home);
    reflexivity.
Defined.

Lemma load_spotdl_config_best_effort_witness :
  load_spotdl_config ∅ (Some demo_home) demo_users [py "home"; py "me"]
    (FStore {[ [py "home"; py "me"; py ".spotdl"; py "config.json"] := py "{oops" ]}
            {[ [] ; [py "home"]; [py "home"; py "me"];
               [py "home"; py "me"; py ".spotdl"] ]})
    no_refusal no_refusal (fun _ => None) None
  = Returns (JObject [],
             Some (MsgWarning
                     (Path true [py "home"; py "me"; py ".spotdl";
                                 py "config.json"]))) /\
  load_spotdl_config ∅ (Some demo_home) demo_users [py "home"; py "me"]
    demo_config_store no_refusal no_refusal (fun _ => None)
    (Some (py "~nosuchuser/cfg.json"))
  = Raises RuntimeError.
Proof.
  split.
  - apply (proj1 (proj2 (proj2
             (load_spotdl_config_best_effort _ _ _ _ _ _ _ _ None))));
      reflexivity.
  - apply (proj1 (load_spotdl_config_best_effort ∅ (Some demo_home) demo_users
                    [py "home"; py "me"] demo_config_store no_refusal no_refusal
                    (fun _ => None) (Some (py "~nosuchuser/cfg.json")))).
    reflexivity.
Defined.
